(** * CaloQVAE: the autoencoder models of [diVAE.py] and the level network of
    [models/networks/hierarchicalEncoderV2.py]

    A shallow embedding of the Python classes [AE], [VAE], [DiVAE] and
    [HierarchicalEncoderV2].

    Conventions of the embedding.
    - Floating-point numbers are idealised as real numbers ([R]); the
      statements below are about the formulas the code evaluates, not about
      rounding.
    - A tensor has rank 0, 1 or 2; a Python number is kept apart from a
      0-dim tensor because [+=] rebinds the former and updates the latter in
      place.  A batch of higher rank is represented by a tensor with the same
      row-major contents: [view(-1, 784)] reads nothing else.
    - Python exceptions are values of [exn]; a method is a function from the
      world (standard output, the debug log, the random generator) to an
      outcome and a new world.
    - Objects defined outside the two source files (the encoder, the decoder,
      the RBM prior, the posterior distributions, [binary_cross_entropy]) are
      records of methods or function arguments: every theorem holds for all
      of them. *)

From Stdlib Require Import String.
From Stdlib Require Import Reals Lra Lia ZArith Bool Arith List.
Import ListNotations.

Open Scope R_scope.

(** ** Outcomes of a Python computation *)

Inductive exn : Type :=
| RuntimeError
| IndexError
| TypeError
| AttributeError
| NameError
| ValueError
| SystemExit.

Inductive outcome (A : Type) : Type :=
| Ret (a : A)
| Raise (e : exn).

Arguments Ret {A} a.
Arguments Raise {A} e.

Definition bindO {A B : Type} (o : outcome A) (k : A -> outcome B) : outcome B :=
  match o with
  | Ret a => k a
  | Raise e => Raise e
  end.

Notation "x <~ o ;; k" := (bindO o (fun x => k))
  (at level 61, o at next level, right associativity).

(** ** Tensors *)

Inductive tensor : Type :=
| Num (r : R)                              (* a Python int or float *)
| T0 (r : R)                               (* a tensor of shape () *)
| T1 (v : list R)                          (* a tensor of shape (len v) *)
| T2 (c : nat) (rows : list (list R)).     (* a tensor of shape (len rows, c) *)

(** [T2 c rows] stands for a tensor only when every row has [c] entries. *)
Definition wf (t : tensor) : Prop :=
  match t with
  | T2 c rows => Forall (fun r => length r = c) rows
  | _ => True
  end.

Definition shape (t : tensor) : list nat :=
  match t with
  | Num _ | T0 _ => []
  | T1 v => [length v]
  | T2 c rows => [length rows; c]
  end.

(** The entries in row-major order. *)
Definition elems (t : tensor) : list R :=
  match t with
  | Num r | T0 r => [r]
  | T1 v => v
  | T2 _ rows => concat rows
  end.

Definition Rsum (l : list R) : R := fold_right Rplus 0 l.

Definition zipWith {A B C : Type} (g : A -> B -> C) (u : list A) (v : list B) : list C :=
  map (fun p => g (fst p) (snd p)) (combine u v).

(** Broadcasting of one dimension: equal sizes pair up, a size of one is
    repeated. *)
Definition bdim (m n : nat) : outcome nat :=
  if (m =? n)%nat then Ret m
  else if (m =? 1)%nat then Ret n
  else if (n =? 1)%nat then Ret m
  else Raise RuntimeError.

Definition bzip {A B C : Type} (g : A -> B -> C) (u : list A) (v : list B) : list C :=
  if (length u =? length v)%nat then zipWith g u v
  else match u, v with
       | [a], _ => map (g a) v
       | _, [b] => map (fun a => g a b) u
       | _, _ => []
       end.

(** An element-wise binary operator with broadcasting ([a + b], [a - b],
    [a * b], [torch.max(a, b)]). *)
Definition bop (f : R -> R -> R) (a b : tensor) : outcome tensor :=
  match a, b with
  | Num x, Num y => Ret (Num (f x y))
  | Num x, T0 y | T0 x, Num y | T0 x, T0 y => Ret (T0 (f x y))
  | Num x, T1 v | T0 x, T1 v => Ret (T1 (map (f x) v))
  | T1 u, Num y | T1 u, T0 y => Ret (T1 (map (fun a => f a y) u))
  | Num x, T2 c rows | T0 x, T2 c rows => Ret (T2 c (map (map (f x)) rows))
  | T2 c rows, Num y | T2 c rows, T0 y =>
      Ret (T2 c (map (map (fun a => f a y)) rows))
  | T1 u, T1 v =>
      _ <~ bdim (length u) (length v) ;;
      Ret (T1 (bzip f u v))
  | T1 u, T2 c rows =>
      c' <~ bdim (length u) c ;;
      Ret (T2 c' (map (fun r => bzip f u r) rows))
  | T2 c rows, T1 v =>
      c' <~ bdim c (length v) ;;
      Ret (T2 c' (map (fun r => bzip f r v) rows))
  | T2 c1 rows1, T2 c2 rows2 =>
      c' <~ bdim c1 c2 ;;
      _ <~ bdim (length rows1) (length rows2) ;;
      Ret (T2 c' (bzip (bzip f) rows1 rows2))
  end.

(** [a += b]: a Python number is rebound to [a + b]; a tensor is updated in
    place, which cannot change its shape. *)
Definition iadd (a b : tensor) : outcome tensor :=
  match a with
  | Num _ => bop Rplus a b
  | _ =>
      r <~ bop Rplus a b ;;
      if list_eq_dec Nat.eq_dec (shape r) (shape a) then Ret r
      else Raise RuntimeError
  end.

(** An element-wise function of one tensor; a Python number is not a
    tensor. *)
Definition tmap (f : R -> R) (t : tensor) : outcome tensor :=
  match t with
  | Num _ => Raise TypeError
  | T0 r => Ret (T0 (f r))
  | T1 v => Ret (T1 (map f v))
  | T2 c rows => Ret (T2 c (map (map f) rows))
  end.

Definition torch_abs : tensor -> outcome tensor := tmap Rabs.
Definition torch_exp : tensor -> outcome tensor := tmap exp.

(** [t.pow(2)] *)
Definition pow2 (t : tensor) : outcome tensor :=
  match t with
  | Num _ => Raise AttributeError
  | _ => tmap (fun a => a ^ 2) t
  end.

(** [torch.nn.Softplus()] with its defaults [beta = 1], [threshold = 20]:
    linear above the threshold, [log(1 + exp(a))] otherwise. *)
Definition softplus (a : R) : R :=
  if Rlt_dec 20 a then a else ln (1 + exp a).

Definition Softplus : tensor -> outcome tensor := tmap softplus.

(** [torch.zeros(t.size())] *)
Definition zeros_of_size (t : tensor) : outcome tensor :=
  match t with
  | Num _ => Raise AttributeError
  | _ => tmap (fun _ => 0) t
  end.

(** [torch.max(a, b)] on two tensors *)
Definition torch_max (a b : tensor) : outcome tensor :=
  match a, b with
  | Num _, _ | _, Num _ => Raise TypeError
  | _, _ => bop Rmax a b
  end.

(** [torch.sum(t)] *)
Definition torch_sum (t : tensor) : outcome tensor :=
  match t with
  | Num _ => Raise TypeError
  | _ => Ret (T0 (Rsum (elems t)))
  end.

(** [torch.sum(t, dim=1)] and [torch.sum(t, axis=1)] *)
Definition torch_sum_dim1 (t : tensor) : outcome tensor :=
  match t with
  | Num _ => Raise TypeError
  | T0 _ | T1 _ => Raise IndexError
  | T2 _ rows => Ret (T1 (map Rsum rows))
  end.

(** [torch.mean(t)].  For a tensor without entries torch answers NaN, which
    no real number stands for: the quotient by [INR 0] below carries no
    meaning, and every statement about a mean assumes at least one entry. *)
Definition torch_mean (t : tensor) : outcome tensor :=
  match t with
  | Num _ => Raise TypeError
  | _ => Ret (T0 (Rsum (elems t) / INR (length (elems t))))
  end.

(** [t[0]] *)
Definition getitem0 (t : tensor) : outcome tensor :=
  match t with
  | Num _ => Raise TypeError
  | T0 _ => Raise IndexError
  | T1 [] => Raise IndexError
  | T1 (a :: _) => Ret (T0 a)
  | T2 _ [] => Raise IndexError
  | T2 _ (r :: _) => Ret (T1 r)
  end.

(** [k] consecutive chunks of [n] entries *)
Fixpoint chunks {A : Type} (n k : nat) (l : list A) : list (list A) :=
  match k with
  | O => []
  | S k' => firstn n l :: chunks n k' (skipn n l)
  end.

(** [t.view(-1, 784)]: rows of 784 entries, when the number of entries is a
    multiple of 784. *)
Definition view784 (t : tensor) : outcome tensor :=
  match t with
  | Num _ => Raise AttributeError
  | _ =>
      let d := elems t in
      if (length d mod 784 =? 0)%nat
      then Ret (T2 784 (chunks 784 (length d / 784) d))
      else Raise RuntimeError
  end.

(** [torch.cat(ts, 1)]: the rows of rank-2 tensors with the same number of
    rows, side by side.  The checks come in the order of the library: every
    element is a tensor ([TypeError]); none has rank 0 ([RuntimeError]);
    rank-1 tensors without entries are passed over; the first tensor left
    has a dimension 1 ([IndexError] for rank 1); the list is not empty
    ([ValueError]); the others have its rank and its number of rows
    ([RuntimeError]). *)
Definition is_Num (t : tensor) : bool :=
  match t with Num _ => true | _ => false end.

Definition is_T0 (t : tensor) : bool :=
  match t with T0 _ => true | _ => false end.

Definition cat_passed_over (t : tensor) : bool :=
  match t with T1 [] => true | _ => false end.

Fixpoint cat_rows (c : nat) (rows : list (list R)) (rest : list tensor)
  : outcome tensor :=
  match rest with
  | [] => Ret (T2 c rows)
  | T2 c' rows' :: rest' =>
      if (length rows =? length rows')%nat
      then cat_rows (c + c') (zipWith (@app R) rows rows') rest'
      else Raise RuntimeError
  | _ :: _ => Raise RuntimeError
  end.

Definition torch_cat1 (ts : list tensor) : outcome tensor :=
  if existsb is_Num ts then Raise TypeError
  else if existsb is_T0 ts then Raise RuntimeError
  else match filter (fun t => negb (cat_passed_over t)) ts with
       | T2 c rows :: rest => cat_rows c rows rest
       | _ :: _ => Raise IndexError
       | [] =>
           match ts with
           | [] => Raise ValueError
           | _ :: _ => Ret (T1 [])
           end
       end.

(** ** The world a method runs in *)

Record world : Type := {
  stdout : list tensor;          (* what [print] wrote, oldest first *)
  debug_log : list string;       (* the records of [logger.debug], oldest first *)
  randn : nat -> R               (* the standard-normal draws [torch.randn*] will return, in order *)
}.

Definition M (A : Type) : Type := world -> outcome A * world.

Definition ret {A : Type} (a : A) : M A := fun w => (Ret a, w).

Definition raise {A : Type} (e : exn) : M A := fun w => (Raise e, w).

Definition bind {A B : Type} (m : M A) (k : A -> M B) : M B :=
  fun w =>
    match m w with
    | (Ret a, w') => k a w'
    | (Raise e, w') => (Raise e, w')
    end.

Definition lift {A : Type} (o : outcome A) : M A := fun w => (o, w).

Notation "x <- m ;; k" := (bind m (fun x => k))
  (at level 61, m at next level, right associativity).
Notation "m ;;; k" := (bind m (fun _ => k))
  (at level 61, right associativity).

Definition logger_debug (msg : string) : M unit :=
  fun w => (Ret tt, {| stdout := stdout w;
                       debug_log := debug_log w ++ [msg];
                       randn := randn w |}).

Definition print (t : tensor) : M unit :=
  fun w => (Ret tt, {| stdout := stdout w ++ [t];
                       debug_log := debug_log w;
                       randn := randn w |}).

(** [sys.exit()] *)
Definition sys_exit {A : Type} : M A := raise SystemExit.

Definition numel (t : tensor) : nat := length (elems t).

(** [torch.randn_like(t)]: a tensor of the shape of [t] filled with the next
    draws of the generator. *)
Definition randn_like (t : tensor) : M tensor :=
  fun w =>
    let draws := map (randn w) (seq 0 (numel t)) in
    let w' := {| stdout := stdout w;
                 debug_log := debug_log w;
                 randn := fun i => randn w (numel t + i)%nat |} in
    match t with
    | Num _ => (Raise TypeError, w)
    | T0 _ => (Ret (T0 (randn w 0%nat)), w')
    | T1 _ => (Ret (T1 draws), w')
    | T2 c rows => (Ret (T2 c (chunks c (length rows) draws)), w')
    end.

(** [l[0]] on a Python list *)
Definition list_getitem0 {A : Type} (l : list A) : M A :=
  match l with
  | [] => raise IndexError
  | a :: _ => ret a
  end.

(** ** class AE *)

Module AE.

Record SimpleEncoder : Type := { encode : tensor -> M tensor }.
Record SimpleDecoder : Type := { decode : tensor -> M tensor }.

Record obj : Type := {
  _latent_dimensions : Z;
  encoder : SimpleEncoder;
  decoder : SimpleDecoder;
  (* [nn.functional.binary_cross_entropy], called with [reduction='sum'] *)
  _loss_fct : tensor -> tensor -> M tensor
}.

Definition forward (self : obj) (x : tensor) : M (tensor * tensor) :=
  xv <- lift (view784 x) ;;
  zeta <- encode (encoder self) xv ;;
  x_recon <- decode (decoder self) zeta ;;
  ret (x_recon, zeta).

Definition loss (self : obj) (x_true x_recon : tensor) : M tensor :=
  xv <- lift (view784 x_true) ;;
  _loss_fct self x_recon xv.

End AE.

(** ** class VAE *)

Module VAE.

Record SimpleEncoder : Type := { encode : tensor -> M tensor }.
Record SimpleDecoder : Type := { decode : tensor -> M tensor }.

Record obj : Type := {
  _latent_dimensions : Z;
  _reparamLayers_mu : tensor -> M tensor;     (* [self._reparamLayers['mu']] *)
  _reparamLayers_var : tensor -> M tensor;    (* [self._reparamLayers['var']] *)
  encoder : SimpleEncoder;
  decoder : SimpleDecoder
}.

Definition reparameterize (self : obj) (mu logvar : tensor) : M tensor :=
  eps <- randn_like mu ;;
  lift (h <~ bop Rmult (Num 0.5) logvar ;;
        s <~ torch_exp h ;;
        es <~ bop Rmult eps s ;;
        bop Rplus mu es).

Section Loss.

(** [torch.nn.functional.binary_cross_entropy(input, target, reduction='sum')] *)
Variable binary_cross_entropy : tensor -> tensor -> M tensor.

Definition loss (self : obj) (x x_recon mu logvar : tensor) : M tensor :=
  logger_debug "loss" ;;;
  (* Autoencoding term *)
  xv <- lift (view784 x) ;;
  auto_loss <- binary_cross_entropy x_recon xv ;;
  (* KL loss term assuming Gaussian-distributed latent variables *)
  kl_loss <- lift (a <~ bop Rplus (Num 1) logvar ;;
                   m2 <~ pow2 mu ;;
                   b <~ bop Rminus a m2 ;;
                   e <~ torch_exp logvar ;;
                   c <~ bop Rminus b e ;;
                   s <~ torch_sum c ;;
                   bop Rmult (Num 0.5) s) ;;
  lift (bop Rminus auto_loss kl_loss).

End Loss.

Definition forward (self : obj) (x : tensor)
  : M (tensor * tensor * tensor * tensor) :=
  xv <- lift (view784 x) ;;
  x_prime <- encode (encoder self) xv ;;
  mu <- _reparamLayers_mu self x_prime ;;
  logvar <- _reparamLayers_var self x_prime ;;
  zeta <- reparameterize self mu logvar ;;
  x_recon <- decode (decoder self) zeta ;;
  ret (x_recon, mu, logvar, zeta).

End VAE.

(** ** class DiVAE *)

Module DiVAE.

(** One level of the posterior: a factorised distribution. *)
Record Distribution : Type := { entropy : tensor -> M tensor }.

Record HierarchicalEncoder : Type := {
  hierarchical_posterior : tensor -> M (list Distribution * list tensor)
}.

Record Decoder : Type := {
  decode : tensor -> M tensor;
  decode_posterior_sample : tensor -> M tensor
}.

Record RBM : Type := {
  cross_entropy : tensor -> M tensor;
  get_samples : nat -> M tensor
}.

(** What the code reads of an [nn.Module] held in an attribute. *)
Record nn_Module : Type := { module_training : bool }.

(** The attributes of a [DiVAE] object.  [__init__] sets all of them except
    [_model], which no method of the class assigns: [_model] is [None] unless
    a caller attached that attribute to the object. *)
Record obj : Type := {
  training : bool;                (* [nn.Module.training] *)
  _latent_dimensions : Z;
  _n_hidden_units : Z;
  weight_decay_factor : R;
  encoder : HierarchicalEncoder;
  decoder : Decoder;
  prior : RBM;
  _model : option nn_Module
}.

(** [DiVAE(latent_dimensions=..., n_hidden_units=...)], the components being
    what [_create_encoder], [_create_decoder] and [_create_prior] return; a
    new [nn.Module] is in training mode. *)
Definition __init__ (latent_dimensions n_hidden_units : Z)
  (enc : HierarchicalEncoder) (dec : Decoder) (rbm : RBM) : obj :=
  {| training := true;
     _latent_dimensions := latent_dimensions;
     _n_hidden_units := n_hidden_units;
     weight_decay_factor := 1e-4;
     encoder := enc;
     decoder := dec;
     prior := rbm;
     _model := None |}.

(** [self._model] *)
Definition getattr_model (self : obj) : M nn_Module :=
  match _model self with
  | Some m => ret m
  | None => raise AttributeError
  end.

Definition sigmoid_cross_entropy_with_logits (self : obj) (x_true x_recon : tensor)
  : M tensor :=
  logger_debug "WARNING sigmoid_cross_entropy_with_logits preliminary" ;;;
  lift (z <~ zeros_of_size x_recon ;;
        mx <~ torch_max x_recon z ;;
        zx <~ bop Rmult x_recon x_true ;;
        d <~ bop Rminus mx zx ;;
        a <~ torch_abs x_recon ;;
        s <~ Softplus a ;;
        bop Rminus d s).

Definition weight_decay_loss (self : obj) : M tensor :=
  logger_debug "ERROR weight_decay_loss NOT IMPLEMENTED" ;;;
  ret (Num 0).

(** The two required positional parameters are options: [None] is an
    argument the call does not supply, which Python answers with a
    [TypeError] before the body runs. *)
Definition kl_div_prior_gradient (self : obj)
  (posterior : option (list Distribution)) (prior : option RBM) : M tensor :=
  match posterior, prior with
  | Some _, Some _ =>
      logger_debug "ERROR kl_div_prior_gradient" ;;;
      ret (Num 0)
  | _, _ => raise TypeError
  end.

Definition kl_div_posterior_gradient (self : obj)
  (posterior : option (list Distribution)) (prior : option RBM) : M tensor :=
  match posterior, prior with
  | Some _, Some _ =>
      logger_debug "ERROR kl_div_posterior_gradient" ;;;
      ret (Num 0)
  | _, _ => raise TypeError
  end.

(** The body of the [for] loop of [kl_divergence] over
    [zip(posterior, posterior_samples)]; the state is
    [(entropy, entropy_reduced, cross_entropy)]. *)
Fixpoint kl_loop (self : obj) (pairs : list (Distribution * tensor))
  (st : tensor * tensor * tensor) : M (tensor * tensor * tensor) :=
  match pairs with
  | [] => ret st
  | (factorial, samples) :: rest =>
      let '(entropy0, _, cross_entropy0) := st in
      e <- entropy factorial samples ;;
      entropy1 <- lift (iadd entropy0 e) ;;
      entropy_reduced <- lift (torch_sum_dim1 entropy1) ;;
      ce <- cross_entropy (prior self) samples ;;
      cross_entropy1 <- lift (iadd cross_entropy0 ce) ;;
      kl_loop self rest (entropy1, entropy_reduced, cross_entropy1)
  end.

(** The result is [None] when the body ends without a [return]. *)
Definition kl_divergence (self : obj) (posterior : list Distribution)
  (posterior_samples : list tensor) : M (option tensor) :=
  logger_debug "ERROR kl_divergence" ;;;
  cond <- (if (1 <? length posterior)%nat
           then m <- getattr_model self ;; ret (module_training m)
           else ret false) ;;
  if cond then
    logger_debug "ERROR kld for training posterior with more than one latent layer" ;;;
    kl_div_prior <- kl_div_prior_gradient self None None ;;
    kl_div_posterior <- kl_div_posterior_gradient self None None ;;
    kld <- lift (bop Rplus kl_div_prior kl_div_posterior) ;;
    ret None
  else
    logger_debug "ERROR kld for evaluation/training of one layer posterior" ;;;
    st <- kl_loop self (combine posterior posterior_samples) (Num 0, Num 0, Num 0) ;;
    let '(_, entropy_reduced, cross_entropy) := st in
    r <- lift (bop Rminus cross_entropy entropy_reduced) ;;
    ret (Some r).

(** [a + b] where [b] may be [None] *)
Definition add_opt (a : tensor) (b : option tensor) : M tensor :=
  match b with
  | Some t => lift (bop Rplus a t)
  | None => raise TypeError
  end.

(** Lines 227 and 229 of [loss]: the reconstruction term, one scalar per
    row of [x_recon]. *)
Definition reconstruction_term (self : obj) (x x_recon : tensor) : M tensor :=
  xv <- lift (view784 x) ;;
  x0 <- lift (getitem0 xv) ;;
  ae_loss_matrix <- sigmoid_cross_entropy_with_logits self x0 x_recon ;;
  lift (torch_sum_dim1 ae_loss_matrix).

Definition loss (self : obj) (x x_recon : tensor)
  (posterior_distribution : list Distribution) (posterior_samples : list tensor)
  : M tensor :=
  logger_debug "ERROR loss NOT CORRECTLY IMPLEMENTED" ;;;
  let hierarchical_posterior := posterior_distribution in
  ae_loss <- reconstruction_term self x x_recon ;;
  r <- (if training self then
          kl_loss <- kl_divergence self hierarchical_posterior posterior_samples ;;
          weight_decay_loss <- weight_decay_loss self ;;
          neg_elbo_per_sample <- add_opt ae_loss kl_loss ;;
          ret (neg_elbo_per_sample, weight_decay_loss)
        else
          kl_loss <- kl_divergence self hierarchical_posterior posterior_samples ;;
          neg_elbo_per_sample <- add_opt ae_loss kl_loss ;;
          ret (neg_elbo_per_sample, Num 0)) ;;
  let '(neg_elbo_per_sample, weight_decay_loss) := r in
  neg_elbo <- lift (torch_mean neg_elbo_per_sample) ;;
  lift (bop Rplus neg_elbo weight_decay_loss).

Definition forward (self : obj) (x : tensor)
  : M (tensor * list Distribution * list tensor) :=
  logger_debug "forward" ;;;
  xv <- lift (view784 x) ;;
  ps <- hierarchical_posterior (encoder self) xv ;;
  let '(posterior_distributions, posterior_samples) := ps in
  posterior_samples_concat <- lift (torch_cat1 posterior_samples) ;;
  output_activations <- decode (decoder self) posterior_samples_concat ;;
  print output_activations ;;;
  (sys_exit : M unit) ;;;
  s0 <- list_getitem0 posterior_samples ;;
  x_prime <- decode_posterior_sample (decoder self) s0 ;;
  (* [posterior_distribution] is not a name in scope *)
  posterior_distribution <- (raise NameError : M (list Distribution)) ;;
  ret (x_prime, posterior_distribution, posterior_samples).

Definition generate_samples (self : obj) (n_samples : nat) : M tensor :=
  logger_debug "ERROR generate_samples" ;;;
  logger_debug "ERROR generate_samples" ;;;
  prior_samples <- get_samples (prior self) n_samples ;;
  decode_posterior_sample (decoder self) prior_samples.

End DiVAE.

(** ** class HierarchicalEncoderV2 *)

Module HierarchicalEncoderV2.

Inductive nn_layer : Type :=
| Linear (in_features out_features : Z)
| Identity
| Activation (name : string).

(** [nn.Linear(i, o)] allocates an [o] by [i] weight, which a negative size
    refuses. *)
Definition nn_Linear (i o : Z) : outcome nn_layer :=
  if ((i <? 0) || (o <? 0))%Z then Raise RuntimeError else Ret (Linear i o).

(** The attributes [_create_hierarchy_network] reads; the parent class that
    sets them is outside the source at hand. *)
Record obj : Type := {
  num_input_nodes : Z;
  n_latent_nodes : Z;
  encoder_hidden_nodes : list Z;      (* [self._config.model.encoder_hidden_nodes] *)
  activation_fct : nn_layer
}.

(** [l[i]] for an index that is not negative *)
Definition getitem (l : list Z) (i : nat) : outcome Z :=
  match nth_error l i with
  | Some z => Ret z
  | None => Raise IndexError
  end.

(** The [for l in range(len(layers)-1)] loop, [moduleLayers] being the list
    built so far. *)
Fixpoint append_layers (self : obj) (layers : list Z) (range : list nat)
  (moduleLayers : list nn_layer) : outcome (list nn_layer) :=
  match range with
  | [] => Ret moduleLayers
  | l :: range' =>
      a <~ getitem layers l ;;
      b <~ getitem layers (l + 1) ;;
      lin <~ nn_Linear a b ;;
      let act_fct :=
        if (Z.of_nat l =? Z.of_nat (length layers) - 2)%Z then Identity
        else activation_fct self in
      append_layers self layers range' (moduleLayers ++ [lin; act_fct])
  end.

(** The result is the list of modules of the [nn.Sequential]. *)
Definition _create_hierarchy_network (self : obj) (level : Z)
  : outcome (list nn_layer) :=
  let layers :=
    [(num_input_nodes self + level * n_latent_nodes self)%Z]
      ++ encoder_hidden_nodes self ++ [n_latent_nodes self] in
  append_layers self layers (seq 0 (length layers - 1)) [].

(** The [in_features] of the first linear layer of a network *)
Fixpoint first_linear_in (ms : list nn_layer) : option Z :=
  match ms with
  | [] => None
  | Linear i _ :: _ => Some i
  | _ :: ms' => first_linear_in ms'
  end.

End HierarchicalEncoderV2.

(** ** The formulas of the specification *)

(** The numerically stable logistic loss of a label [x] and a logit [z], as
    the specification and the comment above the code's [return] give it:
    [max(z, 0) - z * x + log(1 + exp(-abs(z)))]. *)
Definition logistic_loss (x z : R) : R :=
  Rmax z 0 - z * x + ln (1 + exp (- Rabs z)).

(** What [sigmoid_cross_entropy_with_logits] evaluates per element. *)
Definition sigmoid_cross_entropy_elem (x z : R) : R :=
  Rmax z 0 - z * x - softplus (Rabs z).

(** The summand of the analytic Gaussian KL term. *)
Definition gaussian_kl_elem (m l : R) : R := 1 + l - m ^ 2 - exp l.

(** The reparameterised sample of one unit. *)
Definition reparam_elem (m e l : R) : R := m + e * exp (0.5 * l).

(** The reconstruction term that pairs row [k] of the reconstruction with
    row [k] of the input, for a given loss per element. *)
Definition paired_reconstruction (elem : R -> R -> R)
  (x_rows recon_rows : list (list R)) : list R :=
  zipWith (fun xr zr => Rsum (zipWith elem xr zr)) x_rows recon_rows.

(** The same-shape element-wise combination of two tensors *)
Definition tzip (f : R -> R -> R) (a b : tensor) : tensor :=
  match a, b with
  | T1 u, T1 v => T1 (zipWith f u v)
  | T2 c rows1, T2 _ rows2 => T2 c (zipWith (zipWith f) rows1 rows2)
  | _, _ => T0 (f (hd 0 (elems a)) (hd 0 (elems b)))
  end.

(** The element-wise image of a tensor *)
Definition tmapf (f : R -> R) (t : tensor) : tensor :=
  match t with
  | Num r => Num (f r)
  | T0 r => T0 (f r)
  | T1 v => T1 (map f v)
  | T2 c rows => T2 c (map (map f) rows)
  end.

(** Two tensors (not Python numbers) of one shape *)
Inductive same_shape : tensor -> tensor -> Prop :=
| same_shape_0 (x y : R) : same_shape (T0 x) (T0 y)
| same_shape_1 (u v : list R) :
    length u = length v -> same_shape (T1 u) (T1 v)
| same_shape_2 (c : nat) (rows1 rows2 : list (list R)) :
    Forall (fun r => length r = c) rows1 ->
    Forall (fun r => length r = c) rows2 ->
    length rows1 = length rows2 ->
    same_shape (T2 c rows1) (T2 c rows2).

Definition is_tensor (t : tensor) : Prop :=
  match t with
  | Num _ => False
  | _ => True
  end.

(** ** Objects for the examples *)

Definition w0 : world :=
  {| stdout := []; debug_log := []; randn := fun _ => 0 |}.

(** A Bernoulli-like level whose entropy tensor is the sample itself. *)
Definition demo_distribution : DiVAE.Distribution :=
  {| DiVAE.entropy := fun s => ret s |}.

Definition demo_encoder : DiVAE.HierarchicalEncoder :=
  {| DiVAE.hierarchical_posterior := fun xv => ret ([demo_distribution], [xv]) |}.

Definition demo_decoder : DiVAE.Decoder :=
  {| DiVAE.decode := fun t => ret t;
     DiVAE.decode_posterior_sample := fun t => ret t |}.

Definition demo_prior : DiVAE.RBM :=
  {| DiVAE.cross_entropy := fun s => lift (torch_sum_dim1 s);
     DiVAE.get_samples := fun n => ret (T2 1 (repeat [0] n)) |}.

Definition demo_model : DiVAE.obj :=
  DiVAE.__init__ 100 256 demo_encoder demo_decoder demo_prior.


Definition demo_vae : VAE.obj :=
  {| VAE._latent_dimensions := 32;
     VAE._reparamLayers_mu := fun t => ret t;
     VAE._reparamLayers_var := fun t => ret t;
     VAE.encoder := {| VAE.encode := fun t => ret t |};
     VAE.decoder := {| VAE.decode := fun t => ret t |} |}.

(** A stand-in for [binary_cross_entropy] in the examples: the loss of a
    perfect reconstruction. *)
Definition demo_bce (r x : tensor) : M tensor := ret (T0 0).

(** A [binary_cross_entropy] that answers the scalar [b]. *)
Definition const_bce (b : R) (r x : tensor) : M tensor := ret (T0 b).

(** A world whose generator returns 1, 2, 3 and then zeros. *)
Definition demo_world : world :=
  {| stdout := []; debug_log := []; randn := fun i => nth i [1; 2; 3] 0 |}.

(** A prior whose cross-entropy is ten times the sum of each sample row. *)
Definition demo_prior10 : DiVAE.RBM :=
  {| DiVAE.cross_entropy :=
       fun s => lift (r <~ torch_sum_dim1 s ;; bop Rmult (Num 10) r);
     DiVAE.get_samples := fun n => ret (T2 1 (repeat [0] n)) |}.

(** A model in evaluation mode to which a caller attached [_model], itself in
    evaluation mode. *)
Definition demo_model_attached : DiVAE.obj :=
  {| DiVAE.training := false;
     DiVAE._latent_dimensions := 100;
     DiVAE._n_hidden_units := 256;
     DiVAE.weight_decay_factor := 1e-4;
     DiVAE.encoder := demo_encoder;
     DiVAE.decoder := demo_decoder;
     DiVAE.prior := demo_prior10;
     DiVAE._model := Some {| DiVAE.module_training := false |} |}.

(** A batch of two inputs, all zeros and all ones, and a reconstruction whose
    two rows are all ones. *)
Definition two_inputs : tensor := T2 784 [repeat 0 784%nat; repeat 1 784%nat].
Definition two_recons : tensor := T2 784 [repeat 1 784%nat; repeat 1 784%nat].

Definition demo_hev2 : HierarchicalEncoderV2.obj :=
  {| HierarchicalEncoderV2.num_input_nodes := 784;
     HierarchicalEncoderV2.n_latent_nodes := 100;
     HierarchicalEncoderV2.encoder_hidden_nodes := [200; 200]%Z;
     HierarchicalEncoderV2.activation_fct := HierarchicalEncoderV2.Activation "Tanh" |}.

(** ** Reference definitions for the further properties *)

(** The modules of a network read off its list of widths: one linear layer
    per pair of neighbours, each followed by the activation, the last by
    the identity. *)
Fixpoint sequential_of_widths (act : HierarchicalEncoderV2.nn_layer) (layers : list Z)
  : list HierarchicalEncoderV2.nn_layer :=
  match layers with
  | a :: ((b :: rest) as tl) =>
      HierarchicalEncoderV2.Linear a b
        :: (match rest with
            | [] => HierarchicalEncoderV2.Identity
            | _ => act
            end)
        :: sequential_of_widths act tl
  | _ => []
  end.

(** The entry-wise sum of vectors of one length *)
Definition vsum (vs : list (list R)) : list R :=
  match vs with
  | [] => []
  | v :: vs' => fold_left (zipWith Rplus) vs' v
  end.

(** The levels of a posterior with their samples, and what the collaborators
    answer for them: level [k] has the [n] by [c] entropy matrix [rows_k] at
    its sample and the prior the cross-entropy vector [ce_k] of length [n],
    both without touching the world. *)
Inductive level_values (self : DiVAE.obj) (n c : nat) :
  list DiVAE.Distribution -> list tensor -> list (list (list R)) -> list (list R)
  -> Prop :=
| level_values_nil : level_values self n c [] [] [] []
| level_values_cons factorial samples rows ce posterior posterior_samples rowss ces :
    (forall w, DiVAE.entropy factorial samples w = (Ret (T2 c rows), w)) ->
    (forall w, DiVAE.cross_entropy (DiVAE.prior self) samples w = (Ret (T1 ce), w)) ->
    length rows = n ->
    Forall (fun r => length r = c) rows ->
    length ce = n ->
    level_values self n c posterior posterior_samples rowss ces ->
    level_values self n c (factorial :: posterior) (samples :: posterior_samples)
      (rows :: rowss) (ce :: ces).

(** * Properties *)

(** ** Lists and broadcasting *)

Lemma bdim_refl (n : nat) : bdim n n = Ret n.
Proof. unfold bdim. now rewrite Nat.eqb_refl. Qed.

Lemma bzip_same_length {A B C : Type} (g : A -> B -> C) (u : list A) (v : list B) :
  length u = length v -> bzip g u v = zipWith g u v.
Proof. intros H. unfold bzip. rewrite H. now rewrite Nat.eqb_refl. Qed.

Lemma length_zipWith {A B C : Type} (g : A -> B -> C) (u : list A) (v : list B) :
  length u = length v -> length (zipWith g u v) = length u.
Proof.
  intros H. unfold zipWith. rewrite length_map, length_combine. lia.
Qed.

Lemma zipWith_cons {A B C : Type} (g : A -> B -> C) a b u v :
  zipWith g (a :: u) (b :: v) = g a b :: zipWith g u v.
Proof. reflexivity. Qed.

Lemma zipWith_map {A B C A' B' : Type} (g : A -> B -> C)
  (p : A' -> A) (q : B' -> B) (u : list A') (v : list B') :
  zipWith g (map p u) (map q v) = zipWith (fun a b => g (p a) (q b)) u v.
Proof.
  revert v. induction u as [|a u IH]; intros [|b v]; try reflexivity.
  simpl map. rewrite !zipWith_cons. now rewrite IH.
Qed.

Lemma zipWith_diag {A C : Type} (g : A -> A -> C) (u : list A) :
  zipWith g u u = map (fun a => g a a) u.
Proof.
  induction u as [|a u IH]; [reflexivity|].
  rewrite zipWith_cons. simpl. now rewrite IH.
Qed.

Lemma zipWith_ext_in {A B C : Type} (g h : A -> B -> C) (u : list A) (v : list B) :
  (forall a b, In (a, b) (combine u v) -> g a b = h a b) ->
  zipWith g u v = zipWith h u v.
Proof.
  intros H. unfold zipWith. apply map_ext_in. intros [a b] Hin. now apply H.
Qed.

Lemma Rsum_map_repeat {A : Type} (f : A -> R) (a : A) (n : nat) :
  Rsum (map f (repeat a n)) = INR n * f a.
Proof.
  induction n as [|n IH].
  - simpl. lra.
  - rewrite S_INR. simpl repeat. simpl map. unfold Rsum in *. simpl fold_right.
    rewrite IH. lra.
Qed.

Lemma map_Rplus_0 (l : list R) : map (Rplus 0) l = l.
Proof.
  induction l as [|a l IH]; [reflexivity|]. simpl. rewrite IH. f_equal. lra.
Qed.

Ltac solve_length :=
  repeat (first [rewrite length_map | rewrite length_zipWith]);
  solve [congruence | lia].

(** Broadcasting pairs the entries up when the shapes agree. *)
Lemma bop_T1 (f : R -> R -> R) (u v : list R) :
  length u = length v -> bop f (T1 u) (T1 v) = Ret (T1 (zipWith f u v)).
Proof.
  intros H. cbn [bop]. rewrite H, bdim_refl. cbn [bindO].
  now rewrite bzip_same_length.
Qed.

Lemma bop_T2_T1 (f : R -> R -> R) (c : nat) (rows : list (list R)) (v : list R) :
  length v = c -> Forall (fun r => length r = c) rows ->
  bop f (T2 c rows) (T1 v) = Ret (T2 c (map (fun r => zipWith f r v) rows)).
Proof.
  intros Hv Hrows. cbn [bop]. rewrite Hv, bdim_refl. cbn [bindO].
  do 2 f_equal. apply map_ext_in. intros r Hr.
  apply bzip_same_length. rewrite Forall_forall in Hrows.
  rewrite (Hrows r Hr). congruence.
Qed.

Lemma bop_T2_T2 (f : R -> R -> R) (c : nat) (rows1 rows2 : list (list R)) :
  Forall2 (fun r1 r2 => length r1 = length r2) rows1 rows2 ->
  bop f (T2 c rows1) (T2 c rows2) = Ret (T2 c (zipWith (zipWith f) rows1 rows2)).
Proof.
  intros H. cbn [bop]. rewrite bdim_refl. cbn [bindO].
  rewrite (Forall2_length H), bdim_refl. cbn [bindO].
  rewrite bzip_same_length by exact (Forall2_length H).
  do 2 f_equal. apply zipWith_ext_in. intros r1 r2 Hin.
  apply bzip_same_length.
  clear -H Hin. induction H as [|a b l1 l2 Hab _ IH]; [contradiction|].
  destruct Hin as [Heq|Hin]; [now inversion Heq; subst|now apply IH].
Qed.

(** ** The monad *)

Lemma bind_lift_Ret {A B : Type} (o : outcome A) (a : A) (k : A -> M B) (w : world) :
  o = Ret a -> bind (lift o) k w = k a w.
Proof. intros ->. reflexivity. Qed.

Lemma bind_lift_Raise {A B : Type} (o : outcome A) (e : exn) (k : A -> M B) (w : world) :
  o = Raise e -> bind (lift o) k w = (Raise e, w).
Proof. intros ->. reflexivity. Qed.

(** ** The logistic loss *)

Lemma softplus_below_threshold (a : R) :
  a <= 20 -> softplus a = ln (1 + exp a).
Proof.
  intros H. unfold softplus. destruct (Rlt_dec 20 a) as [Hlt|_]; [lra|reflexivity].
Qed.

Lemma ln_2_pos : 0 < ln 2.
Proof. rewrite <- ln_1. apply ln_increasing; lra. Qed.

Lemma sigmoid_cross_entropy_elem_0 : sigmoid_cross_entropy_elem 0 0 = - ln 2.
Proof.
  unfold sigmoid_cross_entropy_elem.
  rewrite Rabs_R0, softplus_below_threshold by lra.
  rewrite exp_0. unfold Rmax. destruct (Rle_dec 0 0); replace (1 + 1) with 2 by lra; lra.
Qed.

Lemma logistic_loss_0 : logistic_loss 0 0 = ln 2.
Proof.
  unfold logistic_loss. rewrite Rabs_R0, Ropp_0, exp_0.
  unfold Rmax. destruct (Rle_dec 0 0); replace (1 + 1) with 2 by lra; lra.
Qed.

(** One row of the element-wise computation of
    [sigmoid_cross_entropy_with_logits], against labels of the same width. *)
Lemma sce_row (z x : list R) :
  length z = length x ->
  zipWith Rminus
    (zipWith Rminus (zipWith Rmax z (map (fun _ => 0) z)) (zipWith Rmult z x))
    (map softplus (map Rabs z))
  = zipWith (fun zi xi => sigmoid_cross_entropy_elem xi zi) z x.
Proof.
  revert x. induction z as [|a z IH]; intros [|b x] H; try discriminate; [reflexivity|].
  simpl map. rewrite !zipWith_cons. f_equal.
  apply IH. simpl in H. lia.
Qed.

(** On two vectors of the same length the code returns, per element,
    [max(z, 0) - z * x - softplus(abs(z))]. *)
Lemma sigmoid_cross_entropy_vectors (self : DiVAE.obj) (x z : list R) (w : world) :
  length z = length x ->
  fst (DiVAE.sigmoid_cross_entropy_with_logits self (T1 x) (T1 z) w)
  = Ret (T1 (zipWith (fun zi xi => sigmoid_cross_entropy_elem xi zi) z x)).
Proof.
  intros H. unfold DiVAE.sigmoid_cross_entropy_with_logits, bind, lift, logger_debug.
  cbn [fst zeros_of_size tmap bindO torch_max torch_abs Softplus].
  rewrite bop_T1 by now rewrite length_map.
  cbn [bindO]. rewrite bop_T1 by exact H.
  cbn [bindO]. rewrite bop_T1 by solve_length.
  cbn [bindO]. rewrite bop_T1 by solve_length.
  now rewrite sce_row.
Qed.

Lemma sigmoid_cross_entropy_elem_1 : sigmoid_cross_entropy_elem 1 1 = - ln (1 + exp 1).
Proof.
  unfold sigmoid_cross_entropy_elem.
  rewrite Rabs_R1, softplus_below_threshold by lra.
  unfold Rmax. destruct (Rle_dec 1 0); lra.
Qed.

Lemma ln_1_plus_exp_pos (a : R) : 0 < ln (1 + exp a).
Proof.
  rewrite <- ln_1. apply ln_increasing; [lra|].
  pose proof (exp_pos a). lra.
Qed.

(** The formula of the specification is not negative for labels in [0,1],
    whatever the logit. *)
Lemma logistic_loss_nonneg (x z : R) :
  0 <= x <= 1 -> 0 <= logistic_loss x z.
Proof.
  intros [H0 H1]. unfold logistic_loss.
  pose proof (ln_1_plus_exp_pos (- Rabs z)) as Hln.
  unfold Rmax. destruct (Rle_dec z 0) as [Hz|Hz].
  - assert (0 <= - z * x) by (apply Rmult_le_pos; lra). lra.
  - assert (0 <= z * (1 - x)) by (apply Rmult_le_pos; lra). lra.
Qed.

(** What the code evaluates is negative when label and logit are the same
    number of [0,1]. *)
Lemma sigmoid_cross_entropy_elem_self_negative (a : R) :
  0 <= a <= 1 -> sigmoid_cross_entropy_elem a a < 0.
Proof.
  intros [H0 H1]. unfold sigmoid_cross_entropy_elem.
  rewrite Rabs_pos_eq, softplus_below_threshold by lra.
  assert (Hexp : 1 <= exp a).
  { rewrite <- exp_0. destruct H0 as [H0|<-]; [left; now apply exp_increasing|right; reflexivity]. }
  assert (Hln : ln 2 <= ln (1 + exp a)).
  { destruct Hexp as [Hexp|Hexp].
    - left. apply ln_increasing; lra.
    - right. f_equal. lra. }
  pose proof ln_lt_2 as H2.
  unfold Rmax. destruct (Rle_dec a 0); nra.
Qed.

(** C1 (the code departs from the claim).  At the label vector [[0]] and the
    logit vector [[0]], [sigmoid_cross_entropy_with_logits] returns
    [[-log 2]], while the logistic loss
    [max(z,0) - z*x + log(1+exp(-|z|))] of the claim is [log 2] there: the
    code subtracts [softplus(|z|)] where the formula adds [softplus(-|z|)]. *)
Theorem sigmoid_cross_entropy_with_logits_is_not_logistic_loss
  (self : DiVAE.obj) (w : world) :
  fst (DiVAE.sigmoid_cross_entropy_with_logits self (T1 [0]) (T1 [0]) w)
    = Ret (T1 [- ln 2])
  /\ logistic_loss 0 0 = ln 2
  /\ - ln 2 <> ln 2.
Proof.
  split; [|split].
  - rewrite sigmoid_cross_entropy_vectors by reflexivity.
    unfold zipWith. cbn [combine map fst snd].
    now rewrite sigmoid_cross_entropy_elem_0.
  - exact logistic_loss_0.
  - pose proof ln_2_pos. lra.
Qed.

(** C7 (the code departs from the claim).  At the input vector [[0; 1]],
    whose entries lie in [0,1],
    [sigmoid_cross_entropy_with_logits(x, x)] returns
    [[-log 2; -log(1+e)]]: both entries are negative, while the logistic loss
    of the specification is not negative at either. *)
Theorem sigmoid_cross_entropy_with_logits_self_is_negative
  (self : DiVAE.obj) (w : world) :
  fst (DiVAE.sigmoid_cross_entropy_with_logits self (T1 [0; 1]) (T1 [0; 1]) w)
    = Ret (T1 [- ln 2; - ln (1 + exp 1)])
  /\ - ln 2 < 0
  /\ - ln (1 + exp 1) < 0
  /\ 0 <= logistic_loss 0 0
  /\ 0 <= logistic_loss 1 1.
Proof.
  split; [|repeat split].
  - rewrite sigmoid_cross_entropy_vectors by reflexivity.
    unfold zipWith. cbn [combine map fst snd].
    now rewrite sigmoid_cross_entropy_elem_0, sigmoid_cross_entropy_elem_1.
  - pose proof ln_2_pos. lra.
  - pose proof (ln_1_plus_exp_pos 1). lra.
  - apply logistic_loss_nonneg. lra.
  - apply logistic_loss_nonneg. lra.
Qed.

(** ** The reshape to rows of 784 *)

Lemma view784_not_multiple (x : tensor) :
  is_tensor x -> (numel x mod 784 <> 0)%nat -> view784 x = Raise RuntimeError.
Proof.
  intros Ht Hm. unfold numel in Hm.
  destruct x as [r|r|v|c rows]; [contradiction| | |];
    unfold view784; apply Nat.eqb_neq in Hm; now rewrite Hm.
Qed.

Lemma length_chunks {A : Type} (n k : nat) (l : list A) :
  length (chunks n k l) = k.
Proof.
  revert l. induction k as [|k IH]; intros l; [reflexivity|].
  simpl. now rewrite IH.
Qed.

Lemma chunks_width {A : Type} (n k : nat) (l : list A) :
  length l = (k * n)%nat -> Forall (fun r => length r = n) (chunks n k l).
Proof.
  revert l. induction k as [|k IH]; intros l Hl; [constructor|].
  simpl. constructor.
  - rewrite length_firstn. lia.
  - apply IH. rewrite length_skipn. lia.
Qed.

Lemma concat_chunks {A : Type} (n k : nat) (l : list A) :
  length l = (k * n)%nat -> concat (chunks n k l) = l.
Proof.
  revert l. induction k as [|k IH]; intros l Hl.
  - destruct l; [reflexivity|discriminate].
  - simpl. rewrite IH by (rewrite length_skipn; lia).
    apply firstn_skipn.
Qed.

(** When the reshape succeeds it yields [numel / 784] rows of exactly 784
    entries holding the entries of the input in order. *)
Lemma view784_rows (x t : tensor) :
  view784 x = Ret t ->
  exists rows, t = T2 784 rows
               /\ length rows = (numel x / 784)%nat
               /\ Forall (fun r => length r = 784%nat) rows
               /\ concat rows = elems x.
Proof.
  intros H.
  assert (Hx : (length (elems x) mod 784 =? 0)%nat = true
               /\ t = T2 784 (chunks 784 (length (elems x) / 784) (elems x))).
  { destruct x as [r|r|v|c rows]; unfold view784 in H; [discriminate| | |];
      destruct (_ =? 0)%nat eqn:E; try discriminate; now inversion H. }
  destruct Hx as [Hm ->]. apply Nat.eqb_eq in Hm.
  assert (Hlen : length (elems x) = (length (elems x) / 784 * 784)%nat).
  { pose proof (Nat.div_mod_eq (length (elems x)) 784). lia. }
  eexists. split; [reflexivity|]. split; [|split].
  - apply length_chunks.
  - now apply chunks_width.
  - now apply concat_chunks.
Qed.



(** ** DiVAE.forward *)

Ltac break_match :=
  match goal with
  | |- context [match ?e with _ => _ end] => destruct e eqn:?
  end.

(** When every step before it succeeds, [forward] prints the output
    activations and leaves through [sys.exit()]. *)
Lemma forward_exits (self : DiVAE.obj) (x xv cat out : tensor)
  (pd : list DiVAE.Distribution) (ps : list tensor) (w w1 w2 : world) :
  view784 x = Ret xv ->
  DiVAE.hierarchical_posterior (DiVAE.encoder self) xv (snd (logger_debug "forward" w))
    = (Ret (pd, ps), w1) ->
  torch_cat1 ps = Ret cat ->
  DiVAE.decode (DiVAE.decoder self) cat w1 = (Ret out, w2) ->
  DiVAE.forward self x w = (Raise SystemExit, snd (print out w2)).
Proof.
  intros Hv He Hc Hd. unfold DiVAE.forward, bind at 1. cbn [logger_debug snd].
  rewrite (bind_lift_Ret _ _ _ _ Hv). unfold bind at 1.
  cbn [logger_debug snd] in He. rewrite He.
  rewrite (bind_lift_Ret _ _ _ _ Hc). unfold bind at 1. rewrite Hd.
  reflexivity.
Qed.

(** C3 (the code departs from the claim).  [DiVAE.forward] never returns:
    for every object, input and world its outcome is an exception, and when
    the reshape, the encoder, the concatenation and the decoder all succeed
    that exception is the [SystemExit] of the [sys.exit()] call that follows
    the [print], as for the model of the examples on one row of zeros. *)
Theorem forward_never_returns :
  (forall (self : DiVAE.obj) (x : tensor) (w : world) r,
     fst (DiVAE.forward self x w) <> Ret r)
  /\ DiVAE.forward demo_model (T1 (repeat 0 784%nat)) w0
     = (Raise SystemExit,
        {| stdout := [T2 784 [repeat 0 784%nat]];
           debug_log := ["forward"%string];
           randn := randn w0 |}).
Proof.
  split.
  - intros self x w r.
    unfold DiVAE.forward, bind, lift, logger_debug, print, sys_exit, raise.
    cbn [fst snd].
    repeat (break_match; cbn [fst snd]; try discriminate).
  - erewrite forward_exits with (xv := T2 784 [repeat 0 784%nat]);
      try reflexivity.
    vm_compute. reflexivity.
Qed.

(** ** The unfinished paths *)

(** C5 (as amended).  Each of [weight_decay_loss], [kl_div_prior_gradient]
    and [kl_div_posterior_gradient], called with its arguments, returns the
    placeholder [0] after writing one record to the debug log; none of them
    raises. *)
Theorem unfinished_paths_return_zero (self : DiVAE.obj)
  (posterior : list DiVAE.Distribution) (prior : DiVAE.RBM) (w : world) :
  DiVAE.weight_decay_loss self w
    = (Ret (Num 0), snd (logger_debug "ERROR weight_decay_loss NOT IMPLEMENTED" w))
  /\ DiVAE.kl_div_prior_gradient self (Some posterior) (Some prior) w
    = (Ret (Num 0), snd (logger_debug "ERROR kl_div_prior_gradient" w))
  /\ DiVAE.kl_div_posterior_gradient self (Some posterior) (Some prior) w
    = (Ret (Num 0), snd (logger_debug "ERROR kl_div_posterior_gradient" w)).
Proof. repeat split. Qed.

(** C5 as the claim words it fails: on the model of the examples none of the
    three operations raises an error. *)
Lemma unfinished_paths_do_not_raise :
  ~ (exists e, fst (DiVAE.weight_decay_loss demo_model w0) = Raise e)
  /\ ~ (exists e,
          fst (DiVAE.kl_div_prior_gradient demo_model
                 (Some [demo_distribution]) (Some demo_prior) w0) = Raise e)
  /\ ~ (exists e,
          fst (DiVAE.kl_div_posterior_gradient demo_model
                 (Some [demo_distribution]) (Some demo_prior) w0) = Raise e).
Proof. repeat split; intros [e H]; discriminate H. Qed.

(** ** The KL term *)

(** The test of [kl_divergence] reads [self._model], which a [DiVAE] object
    does not have, as soon as the posterior has more than one level. *)
Lemma kl_divergence_reads_model (self : DiVAE.obj)
  (d1 d2 : DiVAE.Distribution) (rest : list DiVAE.Distribution)
  (posterior_samples : list tensor) (w : world) :
  DiVAE._model self = None ->
  DiVAE.kl_divergence self (d1 :: d2 :: rest) posterior_samples w
  = (Raise AttributeError, snd (logger_debug "ERROR kl_divergence" w)).
Proof.
  intros H. unfold DiVAE.kl_divergence, bind at 1. cbn [logger_debug snd length Nat.ltb Nat.leb].
  unfold bind at 1, bind at 1, DiVAE.getattr_model. now rewrite H.
Qed.

(** C2 (the code departs from the claim).  For a posterior of two or more
    levels [kl_divergence] raises [AttributeError], in evaluation mode as in
    training mode: the test evaluates [self._model.training] and the object
    has no attribute [_model].  The closed form is never reached. *)
Theorem kl_divergence_hierarchy_raises
  (tr : bool) (ld nh : Z) (wd : R) (enc : DiVAE.HierarchicalEncoder)
  (dec : DiVAE.Decoder) (rbm : DiVAE.RBM)
  (d1 d2 : DiVAE.Distribution) (rest : list DiVAE.Distribution)
  (posterior_samples : list tensor) (w : world) :
  fst (DiVAE.kl_divergence
         {| DiVAE.training := tr; DiVAE._latent_dimensions := ld;
            DiVAE._n_hidden_units := nh; DiVAE.weight_decay_factor := wd;
            DiVAE.encoder := enc; DiVAE.decoder := dec; DiVAE.prior := rbm;
            DiVAE._model := None |}
         (d1 :: d2 :: rest) posterior_samples w)
  = Raise AttributeError.
Proof. now rewrite kl_divergence_reads_model. Qed.

(** With a single level the closed form is reached: when the level's
    entropy at its sample is a matrix and the prior's cross-entropy a vector
    with one entry per row, the result is the cross-entropy minus the
    entropy summed over the latent units. *)
Lemma kl_divergence_single_level (self : DiVAE.obj) (factorial : DiVAE.Distribution)
  (samples : tensor) (more_samples : list tensor) (w w1 w2 : world)
  (c : nat) (rows : list (list R)) (ce : list R) :
  DiVAE.entropy factorial samples
    (snd (logger_debug "ERROR kld for evaluation/training of one layer posterior"
            (snd (logger_debug "ERROR kl_divergence" w))))
    = (Ret (T2 c rows), w1) ->
  DiVAE.cross_entropy (DiVAE.prior self) samples w1 = (Ret (T1 ce), w2) ->
  length ce = length rows ->
  DiVAE.kl_divergence self [factorial] (samples :: more_samples) w
  = (Ret (Some (T1 (zipWith Rminus ce (map Rsum rows)))), w2).
Proof.
  intros He Hc Hlen.
  unfold DiVAE.kl_divergence, bind at 1. cbn [logger_debug snd length Nat.ltb Nat.leb].
  unfold bind at 1. cbn [ret]. unfold bind at 1. cbn [logger_debug snd].
  cbn [logger_debug snd] in He.
  unfold bind at 1. cbn [combine DiVAE.kl_loop]. unfold bind at 1. rewrite He.
  unfold bind at 1. cbn [lift iadd bop]. unfold bind at 1. cbn [lift torch_sum_dim1].
  unfold bind at 1. rewrite Hc.
  unfold bind at 1. cbn [lift iadd bop]. cbn [ret].
  unfold bind at 1. cbn [lift].
  rewrite map_Rplus_0.
  replace (map (map (Rplus 0)) rows) with rows.
  2:{ clear. induction rows as [|r rows IH]; [reflexivity|].
      simpl. now rewrite map_Rplus_0, <- IH. }
  rewrite bop_T1 by solve_length. reflexivity.
Qed.

(** C4 (the code departs from the claim).  For a posterior of two or more
    levels [kl_divergence] does not return the sum of the two gradient
    terms.  On a [DiVAE] object, which has no attribute [_model], it raises
    [AttributeError]; were a module in training mode attached as [_model],
    the call [self.kl_div_prior_gradient()] without its two arguments would
    raise [TypeError]. *)
Theorem kl_divergence_training_hierarchy_raises
  (tr : bool) (ld nh : Z) (wd : R) (enc : DiVAE.HierarchicalEncoder)
  (dec : DiVAE.Decoder) (rbm : DiVAE.RBM)
  (d1 d2 : DiVAE.Distribution) (rest : list DiVAE.Distribution)
  (posterior_samples : list tensor) (w : world) :
  fst (DiVAE.kl_divergence (DiVAE.__init__ ld nh enc dec rbm)
         (d1 :: d2 :: rest) posterior_samples w)
  = Raise AttributeError
  /\ fst (DiVAE.kl_divergence
            {| DiVAE.training := tr; DiVAE._latent_dimensions := ld;
               DiVAE._n_hidden_units := nh; DiVAE.weight_decay_factor := wd;
               DiVAE.encoder := enc; DiVAE.decoder := dec; DiVAE.prior := rbm;
               DiVAE._model := Some {| DiVAE.module_training := true |} |}
            (d1 :: d2 :: rest) posterior_samples w)
  = Raise TypeError.
Proof.
  split.
  - now rewrite kl_divergence_reads_model.
  - reflexivity.
Qed.

(** ** The reconstruction term of DiVAE.loss *)

Lemma zipWith_map_same {A B C D : Type} (g : B -> C -> D) (p : A -> B) (q : A -> C)
  (l : list A) :
  zipWith g (map p l) (map q l) = map (fun a => g (p a) (q a)) l.
Proof. now rewrite zipWith_map, zipWith_diag. Qed.

Lemma bop_T2_maps (f : R -> R -> R) (c : nat) (F G : list R -> list R)
  (rows : list (list R)) :
  (forall r, In r rows -> length (F r) = length (G r)) ->
  bop f (T2 c (map F rows)) (T2 c (map G rows))
  = Ret (T2 c (map (fun r => zipWith f (F r) (G r)) rows)).
Proof.
  intros H. rewrite bop_T2_T2.
  - now rewrite zipWith_map_same.
  - induction rows as [|r rows IH]; simpl; constructor.
    + apply H. now left.
    + apply IH. intros r' Hr'. apply H. now right.
Qed.

Lemma bop_T2_maps_l (f : R -> R -> R) (c : nat) (G : list R -> list R)
  (rows : list (list R)) :
  (forall r, In r rows -> length r = length (G r)) ->
  bop f (T2 c rows) (T2 c (map G rows))
  = Ret (T2 c (map (fun r => zipWith f r (G r)) rows)).
Proof.
  intros H. pose proof (bop_T2_maps f c (fun r => r) G rows H) as E.
  now rewrite map_id in E.
Qed.

(** A vector of labels against a matrix of logits: every row of logits is
    scored against that one vector. *)
Lemma sigmoid_cross_entropy_matrix_vector (self : DiVAE.obj) (c : nat)
  (rows : list (list R)) (x0 : list R) (w : world) :
  length x0 = c -> Forall (fun r => length r = c) rows ->
  DiVAE.sigmoid_cross_entropy_with_logits self (T1 x0) (T2 c rows) w
  = (Ret (T2 c (map (fun zr =>
                       zipWith (fun zi xi => sigmoid_cross_entropy_elem xi zi) zr x0)
                  rows)),
     snd (logger_debug "WARNING sigmoid_cross_entropy_with_logits preliminary" w)).
Proof.
  intros Hx Hrows. rewrite Forall_forall in Hrows.
  unfold DiVAE.sigmoid_cross_entropy_with_logits, bind, lift.
  cbn [logger_debug snd zeros_of_size tmap bindO torch_max torch_abs Softplus].
  f_equal.
  rewrite bop_T2_maps_l by (intros; solve_length). cbn [bindO].
  rewrite bop_T2_T1 by (try apply Forall_forall; assumption). cbn [bindO].
  rewrite bop_T2_maps
    by (intros r Hr; pose proof (Hrows r Hr); solve_length).
  cbn [bindO]. rewrite map_map.
  rewrite bop_T2_maps
    by (intros r Hr; pose proof (Hrows r Hr); solve_length).
  do 2 f_equal. apply map_ext_in. intros r Hr.
  apply sce_row. rewrite (Hrows r Hr). congruence.
Qed.

(** The reconstruction term scores every row of the reconstruction against
    the FIRST row of the reshaped input. *)
Lemma reconstruction_term_uses_first_row (self : DiVAE.obj) (x : tensor)
  (r0 : list R) (rs rows : list (list R)) (w : world) :
  view784 x = Ret (T2 784 (r0 :: rs)) ->
  length r0 = 784%nat ->
  Forall (fun r => length r = 784%nat) rows ->
  fst (DiVAE.reconstruction_term self x (T2 784 rows) w)
  = Ret (T1 (map (fun zr =>
                    Rsum (zipWith (fun zi xi => sigmoid_cross_entropy_elem xi zi) zr r0))
               rows)).
Proof.
  intros Hv H0 Hrows. unfold DiVAE.reconstruction_term.
  rewrite (bind_lift_Ret _ _ _ _ Hv). cbn [getitem0].
  rewrite (bind_lift_Ret _ (T1 r0)) by reflexivity.
  unfold bind at 1. rewrite sigmoid_cross_entropy_matrix_vector by assumption.
  cbn [lift torch_sum_dim1 fst]. now rewrite map_map.
Qed.

Lemma zipWith_repeat {A B C : Type} (g : A -> B -> C) (a : A) (b : B) (n : nat) :
  zipWith g (repeat a n) (repeat b n) = repeat (g a b) n.
Proof.
  induction n as [|n IH]; [reflexivity|].
  simpl repeat. rewrite zipWith_cons. now rewrite IH.
Qed.

Lemma Rsum_repeat (v : R) (n : nat) : Rsum (repeat v n) = INR n * v.
Proof.
  pose proof (Rsum_map_repeat (fun a : R => a) v n) as H.
  now rewrite map_id in H.
Qed.

Lemma view784_two_rows (a b : R) :
  view784 (T2 784 [repeat a 784%nat; repeat b 784%nat])
  = Ret (T2 784 [repeat a 784%nat; repeat b 784%nat]).
Proof. vm_compute. reflexivity. Qed.

Lemma length_repeat_784 (a : R) : length (repeat a 784%nat) = 784%nat.
Proof. apply repeat_length. Qed.

(** C6 (the code departs from the claim).  On the batch [two_inputs] (a row
    of zeros, then a row of ones) with a reconstruction of two rows of ones,
    the reconstruction term of [DiVAE.loss] is the same scalar for both
    samples, the loss of the reconstruction row against input row 0.  For
    sample 1 the pairing of the claim requires the loss against input row 1,
    a different number: the code indexes the reshaped input with [[0]]. *)
Theorem reconstruction_term_ignores_other_rows (self : DiVAE.obj) (w : world) :
  fst (DiVAE.reconstruction_term self two_inputs two_recons w)
    = Ret (T1 [INR 784 * sigmoid_cross_entropy_elem 0 1;
               INR 784 * sigmoid_cross_entropy_elem 0 1])
  /\ paired_reconstruction sigmoid_cross_entropy_elem
       [repeat 0 784%nat; repeat 1 784%nat] [repeat 1 784%nat; repeat 1 784%nat]
     = [INR 784 * sigmoid_cross_entropy_elem 0 1;
        INR 784 * sigmoid_cross_entropy_elem 1 1]
  /\ INR 784 * sigmoid_cross_entropy_elem 0 1
     <> INR 784 * sigmoid_cross_entropy_elem 1 1
  /\ INR 784 * sigmoid_cross_entropy_elem 0 1
     <> INR 784 * logistic_loss 1 1.
Proof.
  assert (Hpos : 0 < INR 784) by (apply lt_0_INR; lia).
  split; [|split; [|split]].
  - unfold two_inputs, two_recons.
    rewrite (reconstruction_term_uses_first_row self _ _ _ _ w (view784_two_rows 0 1)).
    + cbn [map]. now rewrite !zipWith_repeat, !Rsum_repeat.
    + apply length_repeat_784.
    + repeat constructor; apply length_repeat_784.
  - unfold paired_reconstruction. rewrite !zipWith_cons.
    now rewrite !zipWith_repeat, !Rsum_repeat.
  - unfold sigmoid_cross_entropy_elem. intros H.
    apply Rmult_eq_reg_l in H; lra.
  - intros H. apply Rmult_eq_reg_l in H; [|lra].
    pose proof (logistic_loss_nonneg 1 1 ltac:(lra)) as Hl.
    assert (Hs : sigmoid_cross_entropy_elem 0 1 < 0).
    { unfold sigmoid_cross_entropy_elem.
      rewrite Rabs_R1, softplus_below_threshold by lra.
      assert (1 < ln (1 + exp 1)).
      { rewrite <- (ln_exp 1) at 1. apply ln_increasing; [apply exp_pos|lra]. }
      unfold Rmax. destruct (Rle_dec 1 0); lra. }
    lra.
Qed.

(** ** HierarchicalEncoderV2._create_hierarchy_network *)

Module HEV2Facts.
Import HierarchicalEncoderV2.

Lemma nn_Linear_nonneg (i o : Z) :
  (0 <= i)%Z -> (0 <= o)%Z -> nn_Linear i o = Ret (Linear i o).
Proof.
  intros Hi Ho. unfold nn_Linear.
  destruct (Z.ltb_spec i 0); [lia|]. destruct (Z.ltb_spec o 0); [lia|]. reflexivity.
Qed.

Lemma getitem_in_range (l : list Z) (i : nat) :
  (i < length l)%nat -> exists z, getitem l i = Ret z /\ In z l.
Proof.
  intros H. unfold getitem. destruct (nth_error l i) as [z|] eqn:E.
  - exists z. split; [reflexivity|]. eapply nth_error_In. exact E.
  - apply nth_error_None in E. lia.
Qed.

(** The loop only appends: on sizes that are not negative and indices in
    range it returns the list it was given, extended. *)
Lemma append_layers_extends (self : obj) (layers : list Z) (range : list nat) :
  Forall (fun z => (0 <= z)%Z) layers ->
  Forall (fun l => (l + 1 < length layers)%nat) range ->
  forall moduleLayers,
  exists more, append_layers self layers range moduleLayers = Ret (moduleLayers ++ more).
Proof.
  intros Hpos. rewrite Forall_forall in Hpos.
  induction range as [|l range IH]; intros Hr acc.
  - exists []. simpl. now rewrite app_nil_r.
  - inversion Hr as [|? ? Hl Hr']; subst.
    destruct (getitem_in_range layers l ltac:(lia)) as (a & Ea & Ia).
    destruct (getitem_in_range layers (l + 1) ltac:(lia)) as (b & Eb & Ib).
    cbn [append_layers]. rewrite Ea. cbn [bindO]. rewrite Eb. cbn [bindO].
    rewrite nn_Linear_nonneg by (apply Hpos; assumption). cbn [bindO].
    destruct (IH Hr' (acc ++ [Linear a b;
                if (Z.of_nat l =? Z.of_nat (length layers) - 2)%Z
                then Identity else activation_fct self])) as [more E].
    rewrite E. rewrite <- app_assoc. eexists. reflexivity.
Qed.

Lemma seq_in_range (n : nat) :
  Forall (fun l => (l + 1 < S n)%nat) (seq 0 n).
Proof. apply Forall_forall. intros l Hl. apply in_seq in Hl. lia. Qed.

End HEV2Facts.

(** C8.  For a level index and configured widths that are not negative,
    [_create_hierarchy_network(level)] returns a network whose first linear
    layer has input width [num_input_nodes + level * n_latent_nodes]: the
    raw input width alone at level 0, and one latent width more at each
    further level. *)
Theorem create_hierarchy_network_input_width
  (self : HierarchicalEncoderV2.obj) (level : Z) :
  (0 <= level)%Z ->
  (0 <= HierarchicalEncoderV2.num_input_nodes self)%Z ->
  (0 <= HierarchicalEncoderV2.n_latent_nodes self)%Z ->
  Forall (fun z => (0 <= z)%Z) (HierarchicalEncoderV2.encoder_hidden_nodes self) ->
  (exists ms,
     HierarchicalEncoderV2._create_hierarchy_network self level = Ret ms
     /\ HierarchicalEncoderV2.first_linear_in ms
        = Some (HierarchicalEncoderV2.num_input_nodes self
                + level * HierarchicalEncoderV2.n_latent_nodes self)%Z)
  /\ (exists ms0,
        HierarchicalEncoderV2._create_hierarchy_network self 0 = Ret ms0
        /\ HierarchicalEncoderV2.first_linear_in ms0
           = Some (HierarchicalEncoderV2.num_input_nodes self))
  /\ (exists ms1,
        HierarchicalEncoderV2._create_hierarchy_network self (level + 1) = Ret ms1
        /\ HierarchicalEncoderV2.first_linear_in ms1
           = Some (HierarchicalEncoderV2.num_input_nodes self
                   + level * HierarchicalEncoderV2.n_latent_nodes self
                   + HierarchicalEncoderV2.n_latent_nodes self)%Z).
Proof.
  intros Hl Hd Hn Hh.
  assert (width : forall lv, (0 <= lv)%Z ->
    exists ms,
      HierarchicalEncoderV2._create_hierarchy_network self lv = Ret ms
      /\ HierarchicalEncoderV2.first_linear_in ms
         = Some (HierarchicalEncoderV2.num_input_nodes self
                 + lv * HierarchicalEncoderV2.n_latent_nodes self)%Z).
  { intros lv Hlv. unfold HierarchicalEncoderV2._create_hierarchy_network.
    set (d := (HierarchicalEncoderV2.num_input_nodes self
               + lv * HierarchicalEncoderV2.n_latent_nodes self)%Z).
    set (tl := HierarchicalEncoderV2.encoder_hidden_nodes self
               ++ [HierarchicalEncoderV2.n_latent_nodes self]).
    assert (Hd' : (0 <= d)%Z) by (unfold d; nia).
    assert (Htl : Forall (fun z => (0 <= z)%Z) tl).
    { unfold tl. apply Forall_app. split; [assumption|]. now constructor. }
    assert (Hne : exists b tl', tl = b :: tl').
    { unfold tl. destruct (HierarchicalEncoderV2.encoder_hidden_nodes self);
        simpl; eauto. }
    destruct Hne as (b & tl' & Etl). change ([d] ++ tl) with (d :: tl).
    rewrite Etl in *. clearbody d. clear Etl tl.
    assert (Hb : (0 <= b)%Z) by now inversion Htl.
    cbn [length Nat.sub seq].
    cbn [HierarchicalEncoderV2.append_layers HierarchicalEncoderV2.getitem
           nth_error Nat.add bindO].
    rewrite HEV2Facts.nn_Linear_nonneg by assumption. cbn [bindO app].
    destruct (HEV2Facts.append_layers_extends self (d :: b :: tl') (seq 1 (length tl')))
      with (moduleLayers :=
              [HierarchicalEncoderV2.Linear d b;
               if (Z.of_nat 0 =? Z.of_nat (length (d :: b :: tl')) - 2)%Z
               then HierarchicalEncoderV2.Identity
               else HierarchicalEncoderV2.activation_fct self])
      as [more E].
    - constructor; assumption.
    - apply Forall_forall. intros l Hin. apply in_seq in Hin. cbn [length]. lia.
    - eexists. split; [exact E|]. reflexivity. }
  split; [|split].
  - now apply width.
  - destruct (width 0%Z ltac:(lia)) as (ms & E & F).
    exists ms. split; [exact E|]. rewrite F. f_equal. lia.
  - destruct (width (level + 1)%Z ltac:(lia)) as (ms & E & F).
    exists ms. split; [exact E|]. rewrite F. f_equal. lia.
Qed.

Lemma create_hierarchy_network_input_width_witness :
  (0 <= 2)%Z
  /\ (exists ms,
        HierarchicalEncoderV2._create_hierarchy_network demo_hev2 2 = Ret ms
        /\ HierarchicalEncoderV2.first_linear_in ms = Some (784 + 2 * 100)%Z).
Proof.
  split; [lia|].
  apply (create_hierarchy_network_input_width demo_hev2 2).
  - lia.
  - simpl. lia.
  - simpl. lia.
  - simpl. repeat constructor; lia.
Defined.

(** ** Tensors of one shape *)

Lemma same_shape_sym (a b : tensor) : same_shape a b -> same_shape b a.
Proof. intros H. destruct H; constructor; auto. Qed.

Lemma same_shape_trans (a b c : tensor) :
  same_shape a b -> same_shape b c -> same_shape a c.
Proof.
  intros H1 H2. destruct H1; inversion H2; subst; constructor; auto; congruence.
Qed.

Lemma same_shape_refl_l (a b : tensor) : same_shape a b -> same_shape a a.
Proof. intros H. exact (same_shape_trans _ _ _ H (same_shape_sym _ _ H)). Qed.

Lemma same_shape_tmapf (f : R -> R) (a b : tensor) :
  same_shape a b -> same_shape a (tmapf f b).
Proof.
  intros H. destruct H; cbn [tmapf]; constructor; auto.
  - now rewrite length_map.
  - apply Forall_forall. intros r Hr. apply in_map_iff in Hr.
    destruct Hr as (r' & <- & Hr'). rewrite length_map.
    rewrite Forall_forall in H0. now apply H0.
  - now rewrite length_map.
Qed.

Lemma Forall2_same_width (c : nat) (rows1 rows2 : list (list R)) :
  Forall (fun r => length r = c) rows1 ->
  Forall (fun r => length r = c) rows2 ->
  length rows1 = length rows2 ->
  Forall2 (fun r1 r2 => length r1 = length r2) rows1 rows2.
Proof.
  intros H1. revert rows2. induction H1 as [|r1 rows1 Hr1 _ IH]; intros rows2 H2 Hl.
  - destruct rows2; [constructor|discriminate].
  - destruct rows2 as [|r2 rows2]; [discriminate|].
    inversion H2; subst. constructor; [congruence|]. apply IH; auto.
Qed.

Lemma same_shape_tzip (f : R -> R -> R) (a b : tensor) :
  same_shape a b -> same_shape a (tzip f a b).
Proof.
  intros H. destruct H as [x y|u v Hl|c rows1 rows2 H1 H2 Hl]; cbn [tzip].
  - constructor.
  - constructor. now rewrite length_zipWith.
  - constructor; auto.
    + pose proof (Forall2_same_width c rows1 rows2 H1 H2 Hl) as HF.
      clear Hl. induction HF as [|r1 r2 l1 l2 Hr _ IH].
      * constructor.
      * rewrite zipWith_cons. inversion H1; inversion H2; subst.
        constructor; [now rewrite length_zipWith|]. now apply IH.
    + now rewrite length_zipWith.
Qed.

Lemma bop_same_shape (f : R -> R -> R) (a b : tensor) :
  same_shape a b -> bop f a b = Ret (tzip f a b).
Proof.
  intros H. destruct H as [x y|u v Hl|c rows1 rows2 H1 H2 Hl].
  - reflexivity.
  - now apply bop_T1.
  - apply bop_T2_T2. now apply Forall2_same_width with (c := c).
Qed.

Lemma bop_Num_l (f : R -> R -> R) (x : R) (a b : tensor) :
  same_shape a b -> bop f (Num x) b = Ret (tmapf (f x) b).
Proof. intros H. destruct H; reflexivity. Qed.

Lemma tmap_same_shape (f : R -> R) (a b : tensor) :
  same_shape a b -> tmap f b = Ret (tmapf f b).
Proof. intros H. destruct H; reflexivity. Qed.

Lemma pow2_same_shape (a b : tensor) :
  same_shape a b -> pow2 b = Ret (tmapf (fun r => r ^ 2) b).
Proof. intros H. destruct H; reflexivity. Qed.

Lemma torch_sum_same_shape (a b : tensor) :
  same_shape a b -> torch_sum b = Ret (T0 (Rsum (elems b))).
Proof. intros H. destruct H; reflexivity. Qed.

Lemma elems_tmapf (f : R -> R) (t : tensor) :
  elems (tmapf f t) = map f (elems t).
Proof.
  destruct t; cbn [tmapf elems map]; try reflexivity.
  symmetry. apply concat_map.
Qed.

Lemma zipWith_app {A B C : Type} (g : A -> B -> C) (u u' : list A) (v v' : list B) :
  length u = length v ->
  zipWith g (u ++ u') (v ++ v') = zipWith g u v ++ zipWith g u' v'.
Proof.
  revert v. induction u as [|a u IH]; intros [|b v] H; try discriminate; [reflexivity|].
  simpl app. rewrite !zipWith_cons. simpl app. f_equal. apply IH. simpl in H. lia.
Qed.

Lemma elems_tzip (f : R -> R -> R) (a b : tensor) :
  same_shape a b -> elems (tzip f a b) = zipWith f (elems a) (elems b).
Proof.
  intros H. destruct H as [x y|u v Hl|c rows1 rows2 H1 H2 Hl]; try reflexivity.
  cbn [tzip elems].
  pose proof (Forall2_same_width c rows1 rows2 H1 H2 Hl) as HF.
  clear -HF. induction HF as [|r1 r2 l1 l2 Hr _ IH]; [reflexivity|].
  rewrite zipWith_cons. simpl concat. rewrite zipWith_app by exact Hr.
  now rewrite IH.
Qed.

Lemma same_shape_numel (a b : tensor) : same_shape a b -> numel a = numel b.
Proof.
  intros H. unfold numel.
  destruct H as [x y|u v Hl|c rows1 rows2 H1 H2 Hl]; try reflexivity; try exact Hl.
  cbn [elems].
  pose proof (Forall2_same_width c rows1 rows2 H1 H2 Hl) as HF.
  clear -HF. induction HF as [|r1 r2 l1 l2 Hr _ IH]; [reflexivity|].
  simpl concat. rewrite !length_app. congruence.
Qed.

(** ** VAE.loss and VAE.reparameterize *)

Lemma length_concat_width (c : nat) (rows : list (list R)) :
  Forall (fun r => length r = c) rows -> length (concat rows) = (length rows * c)%nat.
Proof.
  induction 1 as [|r rows Hr _ IH]; [reflexivity|].
  simpl. rewrite length_app. lia.
Qed.

Lemma nth_zipWith {A B C : Type} (g : A -> B -> C) (u : list A) (v : list B)
  (i : nat) (da : A) (db : B) (dc : C) :
  (i < length u)%nat -> length u = length v ->
  nth i (zipWith g u v) dc = g (nth i u da) (nth i v db).
Proof.
  revert v i. induction u as [|a u IH]; intros [|b v] i Hi Hl;
    simpl in Hi, Hl; try lia.
  rewrite zipWith_cons. destruct i as [|i]; [reflexivity|].
  simpl. apply IH; lia.
Qed.

Lemma nth_map_lt {A B : Type} (f : A -> B) (l : list A) (i : nat) (da : A) (db : B) :
  (i < length l)%nat -> nth i (map f l) db = f (nth i l da).
Proof.
  intros Hi. rewrite (nth_indep _ db (f da)) by now rewrite length_map.
  apply map_nth.
Qed.

(** [randn_like] fills a tensor of the shape of its argument with the next
    draws and advances the generator past them. *)
Lemma randn_like_same_shape (mu other : tensor) (w : world) :
  same_shape mu other ->
  exists eps,
    randn_like mu w
    = (Ret eps, {| stdout := stdout w; debug_log := debug_log w;
                   randn := fun i => randn w (numel mu + i)%nat |})
    /\ same_shape mu eps
    /\ elems eps = map (randn w) (seq 0 (numel mu)).
Proof.
  intros H. destruct H as [x y|u v Hl|c rows1 rows2 H1 H2 Hl].
  - eexists. split; [reflexivity|]. split; [constructor|reflexivity].
  - eexists. split; [reflexivity|]. split; [|reflexivity].
    constructor. now rewrite length_map, length_seq.
  - eexists. split; [reflexivity|].
    assert (Hd : length (map (randn w) (seq 0 (numel (T2 c rows1))))
                 = (length rows1 * c)%nat).
    { rewrite length_map, length_seq. unfold numel. cbn [elems].
      now apply length_concat_width. }
    split.
    + constructor; auto.
      * now apply chunks_width.
      * now rewrite length_chunks.
    + cbn [elems]. now apply concat_chunks.
Qed.

Lemma gaussian_kl_row (ms ls : list R) :
  length ms = length ls ->
  zipWith Rminus
    (zipWith Rminus (map (Rplus 1) ls) (map (fun a => a ^ 2) ms))
    (map exp ls)
  = zipWith gaussian_kl_elem ms ls.
Proof.
  revert ls. induction ms as [|m ms IH]; intros [|l ls] H; try discriminate; [reflexivity|].
  simpl map. rewrite !zipWith_cons. f_equal. apply IH. simpl in H. lia.
Qed.

(** C9 (as amended).  For an input whose reshape to rows of 784 succeeds, a
    [binary_cross_entropy] that returns the scalar [b] for [x_recon] against
    the reshaped input, and [mu], [logvar] of one shape: [VAE.loss] returns
    [b - 0.5 * sum_i (1 + logvar_i - mu_i^2 - exp(logvar_i))], and
    [VAE.reparameterize] returns a tensor of the shape of [mu] whose entry
    [i] is [mu_i + eps_i * exp(0.5 * logvar_i)], [eps_i] being the next
    standard-normal draws of the generator ([torch.randn_like]), which it
    advances past them. *)
Theorem vae_loss_and_reparameterize
  (binary_cross_entropy : tensor -> tensor -> M tensor) (self : VAE.obj)
  (x xv x_recon mu logvar : tensor) (b : R) (w w1 : world) :
  view784 x = Ret xv ->
  binary_cross_entropy x_recon xv (snd (logger_debug "loss" w)) = (Ret (T0 b), w1) ->
  same_shape mu logvar ->
  VAE.loss binary_cross_entropy self x x_recon mu logvar w
    = (Ret (T0 (b - 0.5 * Rsum (zipWith gaussian_kl_elem (elems mu) (elems logvar)))),
       w1)
  /\ exists z,
       VAE.reparameterize self mu logvar w
       = (Ret z, {| stdout := stdout w; debug_log := debug_log w;
                    randn := fun i => randn w (numel mu + i)%nat |})
       /\ same_shape mu z
       /\ forall i, (i < numel mu)%nat ->
            nth i (elems z) 0
            = reparam_elem (nth i (elems mu) 0) (randn w i) (nth i (elems logvar) 0).
Proof.
  intros Hv Hb Hs.
  pose proof (same_shape_sym _ _ Hs) as Hs'.
  pose proof (same_shape_numel _ _ Hs) as Hn. unfold numel in Hn.
  split.
  - unfold VAE.loss, bind at 1. cbn [logger_debug snd] in *.
    rewrite (bind_lift_Ret _ _ _ _ Hv). unfold bind at 1. rewrite Hb.
    unfold bind at 1.
    rewrite (bop_Num_l _ _ _ _ Hs). cbn [bindO lift].
    rewrite (pow2_same_shape _ _ Hs'). cbn [bindO].
    assert (S1 : same_shape (tmapf (Rplus 1) logvar) (tmapf (fun a => a ^ 2) mu)).
    { eapply same_shape_trans; [apply same_shape_sym, same_shape_tmapf; exact Hs|].
      apply same_shape_tmapf. exact (same_shape_refl_l _ _ Hs). }
    rewrite (bop_same_shape _ _ _ S1). cbn [bindO].
    unfold torch_exp. rewrite (tmap_same_shape _ _ _ Hs). cbn [bindO].
    assert (S2 : same_shape
                   (tzip Rminus (tmapf (Rplus 1) logvar) (tmapf (fun a => a ^ 2) mu))
                   (tmapf exp logvar)).
    { eapply same_shape_trans; [apply same_shape_sym, same_shape_tzip; exact S1|].
      eapply same_shape_trans; [apply same_shape_sym, same_shape_tmapf; exact Hs|].
      now apply same_shape_tmapf. }
    rewrite (bop_same_shape _ _ _ S2). cbn [bindO].
    rewrite (torch_sum_same_shape _ _ (same_shape_tzip Rminus _ _ S2)).
    cbn [bindO bop lift]. do 4 f_equal.
    rewrite (elems_tzip _ _ _ S2), (elems_tzip _ _ _ S1), !elems_tmapf.
    now rewrite gaussian_kl_row.
  - destruct (randn_like_same_shape mu logvar w Hs) as (eps & He & Se & Ee).
    unfold VAE.reparameterize, bind at 1. rewrite He. cbn [lift].
    rewrite (bop_Num_l _ _ _ _ Hs). cbn [bindO].
    assert (S1 : same_shape mu (tmapf (Rmult 0.5) logvar))
      by now apply same_shape_tmapf.
    unfold torch_exp. rewrite (tmap_same_shape _ _ _ S1). cbn [bindO].
    assert (S2 : same_shape eps (tmapf exp (tmapf (Rmult 0.5) logvar))).
    { eapply same_shape_trans; [apply same_shape_sym; exact Se|].
      now apply same_shape_tmapf. }
    rewrite (bop_same_shape _ _ _ S2). cbn [bindO].
    assert (S3 : same_shape mu (tzip Rmult eps (tmapf exp (tmapf (Rmult 0.5) logvar)))).
    { eapply same_shape_trans; [exact Se|]. now apply same_shape_tzip. }
    rewrite (bop_same_shape _ _ _ S3).
    eexists. split; [reflexivity|]. split; [now apply same_shape_tzip|].
    intros i Hi. unfold numel in *.
    pose proof (same_shape_numel _ _ Se) as Hne. unfold numel in Hne.
    rewrite (elems_tzip _ _ _ S3), (elems_tzip _ _ _ S2), !elems_tmapf, Ee.
    rewrite (nth_zipWith _ _ _ _ 0 0)
      by (try assumption; rewrite length_zipWith;
          rewrite ?length_map, ?length_seq; congruence).
    rewrite (nth_zipWith _ _ _ _ 0 0)
      by (rewrite ?length_map, ?length_seq; congruence).
    rewrite (nth_map_lt _ _ _ 0%nat) by now rewrite length_seq.
    rewrite seq_nth by assumption.
    rewrite map_map. rewrite (nth_map_lt _ _ _ 0) by congruence.
    reflexivity.
Qed.

Lemma vae_loss_and_reparameterize_witness :
  view784 (T1 (repeat 0 784%nat)) = Ret (T2 784 [repeat 0 784%nat])
  /\ const_bce 3 (T2 784 [repeat 0 784%nat]) (T2 784 [repeat 0 784%nat])
       (snd (logger_debug "loss" demo_world))
     = (Ret (T0 3), snd (logger_debug "loss" demo_world))
  /\ same_shape (T1 [1; 2]) (T1 [0; 1])
  /\ VAE.loss (const_bce 3) demo_vae (T1 (repeat 0 784%nat))
       (T2 784 [repeat 0 784%nat]) (T1 [1; 2]) (T1 [0; 1]) demo_world
     = (Ret (T0 (3 - 0.5 * Rsum (zipWith gaussian_kl_elem [1; 2] [0; 1]))),
        snd (logger_debug "loss" demo_world))
  /\ exists z,
       VAE.reparameterize demo_vae (T1 [1; 2]) (T1 [0; 1]) demo_world
       = (Ret z, {| stdout := stdout demo_world; debug_log := debug_log demo_world;
                    randn := fun i => randn demo_world (2 + i)%nat |})
       /\ same_shape (T1 [1; 2]) z
       /\ nth 0 (elems z) 0 = reparam_elem 1 1 0
       /\ nth 1 (elems z) 0 = reparam_elem 2 2 1.
Proof.
  assert (Hv : view784 (T1 (repeat 0 784%nat)) = Ret (T2 784 [repeat 0 784%nat]))
    by (vm_compute; reflexivity).
  assert (Hb : const_bce 3 (T2 784 [repeat 0 784%nat]) (T2 784 [repeat 0 784%nat])
                 (snd (logger_debug "loss" demo_world))
               = (Ret (T0 3), snd (logger_debug "loss" demo_world)))
    by reflexivity.
  assert (Hs : same_shape (T1 [1; 2]) (T1 [0; 1])) by (constructor; reflexivity).
  destruct (vae_loss_and_reparameterize (const_bce 3) demo_vae
              (T1 (repeat 0 784%nat)) (T2 784 [repeat 0 784%nat])
              (T2 784 [repeat 0 784%nat]) (T1 [1; 2]) (T1 [0; 1]) 3 demo_world
              (snd (logger_debug "loss" demo_world)) Hv Hb Hs)
    as [HL (z & Hz & Hsz & Hn)].
  split; [exact Hv|]. split; [exact Hb|]. split; [exact Hs|]. split; [exact HL|].
  exists z. split; [exact Hz|]. split; [exact Hsz|]. split.
  - exact (Hn 0%nat (Nat.lt_0_succ 1)).
  - exact (Hn 1%nat (Nat.lt_succ_diag_r 1)).
Defined.

(** C9 as the claim words it fails: on an input of one entry [VAE.loss]
    raises at the reshape, and on [mu] and [logvar] of two and three entries
    [VAE.reparameterize] raises at the product, so neither returns the
    stated value for every argument. *)
Lemma vae_loss_and_reparameterize_not_total :
  ~ (exists t,
       fst (VAE.loss (const_bce 3) demo_vae (T1 [0]) (T1 [0]) (T1 [1; 2]) (T1 [0; 1])
              demo_world) = Ret t)
  /\ ~ (exists t,
          fst (VAE.reparameterize demo_vae (T1 [1; 2]) (T1 [0; 1; 0]) demo_world)
          = Ret t).
Proof.
  split; intros [t H].
  - unfold VAE.loss, bind at 1 in H. cbn [logger_debug snd] in H.
    rewrite (bind_lift_Raise (view784 (T1 [0])) RuntimeError) in H
      by (apply view784_not_multiple; [exact I|vm_compute; discriminate]).
    discriminate H.
  - unfold VAE.reparameterize, bind, randn_like, lift in H.
    cbn [bop bindO torch_exp tmap map length bdim Nat.eqb fst] in H.
    discriminate H.
Qed.


(** * Further properties *)

(** ** The level network, module by module *)

Lemma sequential_of_widths_cons (act : HierarchicalEncoderV2.nn_layer)
  (a b : Z) (rest : list Z) :
  sequential_of_widths act (a :: b :: rest)
  = HierarchicalEncoderV2.Linear a b
      :: (match rest with [] => HierarchicalEncoderV2.Identity | _ => act end)
      :: sequential_of_widths act (b :: rest).
Proof. reflexivity. Qed.

Lemma append_layers_suffix (self : HierarchicalEncoderV2.obj) (suf pre : list Z)
  (moduleLayers : list HierarchicalEncoderV2.nn_layer) :
  Forall (fun z => (0 <= z)%Z) suf ->
  HierarchicalEncoderV2.append_layers self (pre ++ suf)
    (seq (length pre) (length suf - 1)) moduleLayers
  = Ret (moduleLayers
         ++ sequential_of_widths (HierarchicalEncoderV2.activation_fct self) suf).
Proof.
  revert pre moduleLayers.
  induction suf as [|a suf IH]; intros pre acc Hpos.
  - simpl. now rewrite app_nil_r.
  - destruct suf as [|b rest].
    + simpl. now rewrite app_nil_r.
    + inversion Hpos as [|? ? Ha Hpos']; subst. inversion Hpos' as [|? ? Hb _]; subst.
      cbn [length Nat.sub seq].
      cbn [HierarchicalEncoderV2.append_layers].
      unfold HierarchicalEncoderV2.getitem at 1.
      rewrite nth_error_app2 by lia. rewrite Nat.sub_diag. cbn [nth_error bindO].
      unfold HierarchicalEncoderV2.getitem at 1.
      rewrite nth_error_app2 by lia.
      replace (length pre + 1 - length pre)%nat with 1%nat by lia.
      cbn [nth_error bindO].
      rewrite HEV2Facts.nn_Linear_nonneg by assumption. cbn [bindO].
      pose proof (IH (pre ++ [a]) (acc ++ [HierarchicalEncoderV2.Linear a b;
          if (Z.of_nat (length pre) =? Z.of_nat (length (pre ++ a :: b :: rest)) - 2)%Z
          then HierarchicalEncoderV2.Identity
          else HierarchicalEncoderV2.activation_fct self]) Hpos') as E.
      rewrite <- app_assoc in E. cbn [app] in E.
      rewrite length_app in E. cbn [length] in E.
      replace (length pre + 1)%nat with (S (length pre)) in E by lia.
      cbn [length Nat.sub] in E. rewrite Nat.sub_0_r in E.
      rewrite E. rewrite <- app_assoc. f_equal. f_equal.
      rewrite sequential_of_widths_cons. cbn [app]. do 2 f_equal.
      rewrite length_app. cbn [length].
      destruct rest as [|c rest]; cbn [length];
        match goal with
        | |- context [(?u =? ?v)%Z] => destruct (Z.eqb_spec u v)
        end; try reflexivity; exfalso; lia.
Qed.

Lemma widths_nonneg (self : HierarchicalEncoderV2.obj) (level : Z) :
  (0 <= HierarchicalEncoderV2.num_input_nodes self
        + level * HierarchicalEncoderV2.n_latent_nodes self)%Z ->
  (0 <= HierarchicalEncoderV2.n_latent_nodes self)%Z ->
  Forall (fun z => (0 <= z)%Z) (HierarchicalEncoderV2.encoder_hidden_nodes self) ->
  Forall (fun z => (0 <= z)%Z)
    ([(HierarchicalEncoderV2.num_input_nodes self
       + level * HierarchicalEncoderV2.n_latent_nodes self)%Z]
     ++ HierarchicalEncoderV2.encoder_hidden_nodes self
     ++ [HierarchicalEncoderV2.n_latent_nodes self]).
Proof.
  intros Hd Hn Hh. constructor; [assumption|].
  apply Forall_app. split; [assumption|]. now constructor.
Qed.

(** X1.  When no width is negative, the network of a level is exactly the
    chain read off the widths
    [[num_input_nodes + level * n_latent_nodes] + hidden + [n_latent_nodes]]:
    a linear layer for each pair of neighbouring widths, each followed by
    the configured activation, except the last, which is followed by the
    identity. *)
Theorem create_hierarchy_network_structure
  (self : HierarchicalEncoderV2.obj) (level : Z) :
  (0 <= HierarchicalEncoderV2.num_input_nodes self
        + level * HierarchicalEncoderV2.n_latent_nodes self)%Z ->
  (0 <= HierarchicalEncoderV2.n_latent_nodes self)%Z ->
  Forall (fun z => (0 <= z)%Z) (HierarchicalEncoderV2.encoder_hidden_nodes self) ->
  HierarchicalEncoderV2._create_hierarchy_network self level
  = Ret (sequential_of_widths (HierarchicalEncoderV2.activation_fct self)
           ([(HierarchicalEncoderV2.num_input_nodes self
              + level * HierarchicalEncoderV2.n_latent_nodes self)%Z]
            ++ HierarchicalEncoderV2.encoder_hidden_nodes self
            ++ [HierarchicalEncoderV2.n_latent_nodes self])).
Proof.
  intros Hd Hn Hh. unfold HierarchicalEncoderV2._create_hierarchy_network.
  exact (append_layers_suffix self _ [] [] (widths_nonneg self level Hd Hn Hh)).
Qed.

Lemma create_hierarchy_network_structure_witness :
  (0 <= HierarchicalEncoderV2.num_input_nodes demo_hev2
        + 1 * HierarchicalEncoderV2.n_latent_nodes demo_hev2)%Z
  /\ HierarchicalEncoderV2._create_hierarchy_network demo_hev2 1
     = Ret [HierarchicalEncoderV2.Linear 884 200; HierarchicalEncoderV2.Activation "Tanh";
            HierarchicalEncoderV2.Linear 200 200; HierarchicalEncoderV2.Activation "Tanh";
            HierarchicalEncoderV2.Linear 200 100; HierarchicalEncoderV2.Identity].
Proof.
  assert (Hd : (0 <= HierarchicalEncoderV2.num_input_nodes demo_hev2
                     + 1 * HierarchicalEncoderV2.n_latent_nodes demo_hev2)%Z)
    by (simpl; lia).
  split; [exact Hd|].
  apply (create_hierarchy_network_structure demo_hev2 1 Hd).
  - simpl. lia.
  - simpl. repeat constructor; lia.
Defined.

Lemma length_sequential_of_widths (act : HierarchicalEncoderV2.nn_layer) (layers : list Z) :
  length (sequential_of_widths act layers) = (2 * (length layers - 1))%nat.
Proof.
  induction layers as [|a layers IH]; [reflexivity|].
  destruct layers as [|b rest]; [reflexivity|].
  rewrite sequential_of_widths_cons. cbn [length] in *. rewrite IH. lia.
Qed.

Lemma sequential_of_widths_end (act : HierarchicalEncoderV2.nn_layer)
  (a : Z) (mid : list Z) (n : Z) :
  exists pre i,
    sequential_of_widths act (a :: mid ++ [n])
    = pre ++ [HierarchicalEncoderV2.Linear i n; HierarchicalEncoderV2.Identity]
    /\ Forall (fun m => m = act \/ exists i o, m = HierarchicalEncoderV2.Linear i o) pre.
Proof.
  revert a. induction mid as [|b mid IH]; intros a.
  - exists [], a. split; [reflexivity|constructor].
  - destruct (IH b) as (pre & i & E & F).
    exists (HierarchicalEncoderV2.Linear a b :: act :: pre), i. split.
    + cbn [app] in *. rewrite sequential_of_widths_cons, E.
      destruct mid; reflexivity.
    + constructor; [right; eauto|]. constructor; [now left|assumption].
Qed.

(** X2.  When no width is negative, the network of a level has two modules
    per layer, [2 * (len(hidden) + 1)] in all; it ends with a linear layer of
    output width [n_latent_nodes] followed by the identity, and every module
    before those two is a linear layer or the configured activation. *)
Theorem create_hierarchy_network_output_end
  (self : HierarchicalEncoderV2.obj) (level : Z) :
  (0 <= HierarchicalEncoderV2.num_input_nodes self
        + level * HierarchicalEncoderV2.n_latent_nodes self)%Z ->
  (0 <= HierarchicalEncoderV2.n_latent_nodes self)%Z ->
  Forall (fun z => (0 <= z)%Z) (HierarchicalEncoderV2.encoder_hidden_nodes self) ->
  exists pre i,
    HierarchicalEncoderV2._create_hierarchy_network self level
    = Ret (pre ++ [HierarchicalEncoderV2.Linear i (HierarchicalEncoderV2.n_latent_nodes self);
                   HierarchicalEncoderV2.Identity])
    /\ length (pre ++ [HierarchicalEncoderV2.Linear i
                         (HierarchicalEncoderV2.n_latent_nodes self);
                       HierarchicalEncoderV2.Identity])
       = (2 * (length (HierarchicalEncoderV2.encoder_hidden_nodes self) + 1))%nat
    /\ Forall (fun m => m = HierarchicalEncoderV2.activation_fct self
                        \/ exists i o, m = HierarchicalEncoderV2.Linear i o) pre.
Proof.
  intros Hd Hn Hh.
  assert (E0 : HierarchicalEncoderV2._create_hierarchy_network self level
               = Ret (sequential_of_widths (HierarchicalEncoderV2.activation_fct self)
                        ((HierarchicalEncoderV2.num_input_nodes self
                          + level * HierarchicalEncoderV2.n_latent_nodes self)%Z
                         :: HierarchicalEncoderV2.encoder_hidden_nodes self
                         ++ [HierarchicalEncoderV2.n_latent_nodes self])))
    by exact (append_layers_suffix self _ [] [] (widths_nonneg self level Hd Hn Hh)).
  rewrite E0.
  destruct (sequential_of_widths_end (HierarchicalEncoderV2.activation_fct self)
              (HierarchicalEncoderV2.num_input_nodes self
               + level * HierarchicalEncoderV2.n_latent_nodes self)%Z
              (HierarchicalEncoderV2.encoder_hidden_nodes self)
              (HierarchicalEncoderV2.n_latent_nodes self)) as (pre & i & E & F).
  exists pre, i. split; [now rewrite E|]. split; [|exact F].
  rewrite <- E, length_sequential_of_widths. cbn [length].
  rewrite length_app. cbn [length]. lia.
Qed.

Lemma create_hierarchy_network_output_end_witness :
  (0 <= HierarchicalEncoderV2.num_input_nodes demo_hev2
        + 1 * HierarchicalEncoderV2.n_latent_nodes demo_hev2)%Z
  /\ exists pre i,
       HierarchicalEncoderV2._create_hierarchy_network demo_hev2 1
       = Ret (pre ++ [HierarchicalEncoderV2.Linear i 100; HierarchicalEncoderV2.Identity])
       /\ length (pre ++ [HierarchicalEncoderV2.Linear i 100;
                          HierarchicalEncoderV2.Identity]) = 6%nat.
Proof.
  assert (Hd : (0 <= HierarchicalEncoderV2.num_input_nodes demo_hev2
                     + 1 * HierarchicalEncoderV2.n_latent_nodes demo_hev2)%Z)
    by (simpl; lia).
  split; [exact Hd|].
  destruct (create_hierarchy_network_output_end demo_hev2 1 Hd)
    as (pre & i & E & L & _).
  - simpl. lia.
  - simpl. repeat constructor; lia.
  - exists pre, i. split; [exact E|exact L].
Defined.

Lemma append_layers_negative (self : HierarchicalEncoderV2.obj) (suf pre : list Z)
  (moduleLayers : list HierarchicalEncoderV2.nn_layer) :
  Exists (fun z => (z < 0)%Z) suf -> (2 <= length suf)%nat ->
  HierarchicalEncoderV2.append_layers self (pre ++ suf)
    (seq (length pre) (length suf - 1)) moduleLayers
  = Raise RuntimeError.
Proof.
  revert pre moduleLayers.
  induction suf as [|a suf IH]; intros pre acc Hneg Hlen; [inversion Hneg|].
  destruct suf as [|b rest]; [simpl in Hlen; lia|].
  cbn [length Nat.sub seq].
  cbn [HierarchicalEncoderV2.append_layers].
  unfold HierarchicalEncoderV2.getitem at 1.
  rewrite nth_error_app2 by lia. rewrite Nat.sub_diag. cbn [nth_error bindO].
  unfold HierarchicalEncoderV2.getitem at 1.
  rewrite nth_error_app2 by lia.
  replace (length pre + 1 - length pre)%nat with 1%nat by lia.
  cbn [nth_error bindO].
  unfold HierarchicalEncoderV2.nn_Linear.
  destruct (Z.ltb_spec a 0) as [Ha|Ha]; [reflexivity|].
  destruct (Z.ltb_spec b 0) as [Hb|Hb]; [reflexivity|].
  cbn [orb bindO].
  assert (Hrest : Exists (fun z => (z < 0)%Z) rest).
  { inversion Hneg as [? ? H|? ? H]; subst; [lia|].
    inversion H as [? ? H'|? ? H']; subst; [lia|assumption]. }
  assert (Hlen' : (2 <= length (b :: rest))%nat).
  { destruct rest; [inversion Hrest|simpl; lia]. }
  pose proof (IH (pre ++ [a]) (acc ++ [HierarchicalEncoderV2.Linear a b;
      if (Z.of_nat (length pre) =? Z.of_nat (length (pre ++ a :: b :: rest)) - 2)%Z
      then HierarchicalEncoderV2.Identity
      else HierarchicalEncoderV2.activation_fct self])
      (Exists_cons_tl b Hrest) Hlen') as E.
  rewrite <- app_assoc in E. cbn [app] in E.
  rewrite length_app in E. cbn [length] in E.
  replace (length pre + 1)%nat with (S (length pre)) in E by lia.
  cbn [length Nat.sub] in E. rewrite Nat.sub_0_r in E.
  exact E.
Qed.

(** X3.  When one of the widths - the input width
    [num_input_nodes + level * n_latent_nodes], a hidden width or
    [n_latent_nodes] - is negative, the construction raises and returns no
    network. *)
Theorem create_hierarchy_network_negative_width
  (self : HierarchicalEncoderV2.obj) (level : Z) :
  Exists (fun z => (z < 0)%Z)
    ([(HierarchicalEncoderV2.num_input_nodes self
       + level * HierarchicalEncoderV2.n_latent_nodes self)%Z]
     ++ HierarchicalEncoderV2.encoder_hidden_nodes self
     ++ [HierarchicalEncoderV2.n_latent_nodes self]) ->
  HierarchicalEncoderV2._create_hierarchy_network self level = Raise RuntimeError.
Proof.
  intros H. unfold HierarchicalEncoderV2._create_hierarchy_network.
  apply (append_layers_negative self _ [] [] H).
  cbn [app length]. rewrite length_app. cbn [length]. lia.
Qed.

Lemma create_hierarchy_network_negative_width_witness :
  Exists (fun z => (z < 0)%Z)
    ([(HierarchicalEncoderV2.num_input_nodes demo_hev2
       + (-8) * HierarchicalEncoderV2.n_latent_nodes demo_hev2)%Z]
     ++ HierarchicalEncoderV2.encoder_hidden_nodes demo_hev2
     ++ [HierarchicalEncoderV2.n_latent_nodes demo_hev2])
  /\ HierarchicalEncoderV2._create_hierarchy_network demo_hev2 (-8) = Raise RuntimeError.
Proof.
  assert (H : Exists (fun z => (z < 0)%Z)
    ([(HierarchicalEncoderV2.num_input_nodes demo_hev2
       + (-8) * HierarchicalEncoderV2.n_latent_nodes demo_hev2)%Z]
     ++ HierarchicalEncoderV2.encoder_hidden_nodes demo_hev2
     ++ [HierarchicalEncoderV2.n_latent_nodes demo_hev2]))
    by (apply Exists_cons_hd; simpl; lia).
  split; [exact H|].
  exact (create_hierarchy_network_negative_width demo_hev2 (-8) H).
Defined.

(** ** The closed form of the KL term *)

Lemma Rsum_zipWith_plus (u v : list R) :
  length u = length v -> Rsum (zipWith Rplus u v) = Rsum u + Rsum v.
Proof.
  revert v. induction u as [|a u IH]; intros [|b v] H; try discriminate.
  - unfold Rsum. simpl. lra.
  - rewrite zipWith_cons. unfold Rsum in *. simpl fold_right.
    rewrite IH by (simpl in H; lia). lra.
Qed.

Lemma map_Rsum_zipWith (c : nat) (A B : list (list R)) :
  Forall (fun r => length r = c) A -> Forall (fun r => length r = c) B ->
  length A = length B ->
  map Rsum (zipWith (zipWith Rplus) A B) = zipWith Rplus (map Rsum A) (map Rsum B).
Proof.
  intros HA HB HL. pose proof (Forall2_same_width c A B HA HB HL) as HF.
  clear -HF. induction HF as [|r1 r2 l1 l2 Hr _ IH]; [reflexivity|].
  rewrite zipWith_cons. simpl map. rewrite zipWith_cons.
  now rewrite IH, Rsum_zipWith_plus.
Qed.

Lemma zipWith_rows_width (c : nat) (A B : list (list R)) :
  Forall (fun r => length r = c) A -> Forall (fun r => length r = c) B ->
  length A = length B ->
  Forall (fun r => length r = c) (zipWith (zipWith Rplus) A B).
Proof.
  intros HA. revert B. induction HA as [|a A Ha _ IH]; intros [|b B] HB HL;
    try discriminate; [constructor|].
  inversion HB; subst. rewrite zipWith_cons. constructor.
  - now rewrite length_zipWith.
  - apply IH; [assumption|simpl in HL; lia].
Qed.

Lemma map_map_Rplus_0 (rows : list (list R)) : map (map (Rplus 0)) rows = rows.
Proof.
  induction rows as [|r rows IH]; [reflexivity|].
  simpl. now rewrite map_Rplus_0, IH.
Qed.

Lemma iadd_T2 (c : nat) (A B : list (list R)) :
  Forall (fun r => length r = c) A -> Forall (fun r => length r = c) B ->
  length A = length B ->
  iadd (T2 c A) (T2 c B) = Ret (T2 c (zipWith (zipWith Rplus) A B)).
Proof.
  intros HA HB HL. unfold iadd.
  rewrite bop_T2_T2 by now apply Forall2_same_width with (c := c).
  cbn [bindO shape]. rewrite length_zipWith by assumption.
  destruct (list_eq_dec Nat.eq_dec [length A; c] [length A; c]); [reflexivity|congruence].
Qed.

Lemma iadd_T1 (u v : list R) :
  length u = length v -> iadd (T1 u) (T1 v) = Ret (T1 (zipWith Rplus u v)).
Proof.
  intros HL. unfold iadd. rewrite bop_T1 by assumption.
  cbn [bindO shape]. rewrite length_zipWith by assumption.
  destruct (list_eq_dec Nat.eq_dec [length u] [length u]); [reflexivity|congruence].
Qed.

(** The state of the loop after the remaining levels: the entropy matrices
    and the cross-entropy vectors are accumulated entry by entry, and
    [entropy_reduced] is the row sums of the accumulated matrix. *)
Lemma kl_loop_accumulates (self : DiVAE.obj) (n c : nat)
  (posterior : list DiVAE.Distribution) (posterior_samples : list tensor)
  (rowss : list (list (list R))) (ces : list (list R)) :
  level_values self n c posterior posterior_samples rowss ces ->
  forall (acc : list (list R)) (cacc : list R) (w : world),
    length acc = n -> Forall (fun r => length r = c) acc -> length cacc = n ->
    DiVAE.kl_loop self (combine posterior posterior_samples)
      (T2 c acc, T1 (map Rsum acc), T1 cacc) w
    = (Ret (T2 c (fold_left (zipWith (zipWith Rplus)) rowss acc),
            T1 (fold_left (zipWith Rplus) (map (map Rsum) rowss) (map Rsum acc)),
            T1 (fold_left (zipWith Rplus) ces cacc)), w).
Proof.
  induction 1 as [|f s rows ce fs ss rowss ces He Hc Hn Hw Hl _ IH];
    intros acc cacc w Ha Hwa Hca; [reflexivity|].
  cbn [combine DiVAE.kl_loop]. unfold bind at 1. rewrite He.
  rewrite (bind_lift_Ret _ _ _ _ (iadd_T2 c acc rows Hwa Hw ltac:(congruence))).
  rewrite (bind_lift_Ret _ (T1 (map Rsum (zipWith (zipWith Rplus) acc rows))))
    by reflexivity.
  unfold bind at 1. rewrite Hc.
  rewrite (bind_lift_Ret _ _ _ _ (iadd_T1 cacc ce ltac:(congruence))).
  rewrite IH.
  - cbn [fold_left map]. do 4 f_equal.
    rewrite (map_Rsum_zipWith c) by (try assumption; congruence). reflexivity.
  - rewrite length_zipWith; congruence.
  - apply zipWith_rows_width; try assumption; congruence.
  - rewrite length_zipWith; congruence.
Qed.

Lemma length_fold_zipWith (n : nat) (vs : list (list R)) (v : list R) :
  length v = n -> Forall (fun u => length u = n) vs ->
  length (fold_left (zipWith Rplus) vs v) = n.
Proof.
  intros Hv H. revert v Hv. induction H as [|u vs Hu _ IH]; intros v Hv; [exact Hv|].
  cbn [fold_left]. apply IH. rewrite length_zipWith; congruence.
Qed.

Lemma level_values_lengths (self : DiVAE.obj) (n c : nat)
  (posterior : list DiVAE.Distribution) (posterior_samples : list tensor)
  (rowss : list (list (list R))) (ces : list (list R)) :
  level_values self n c posterior posterior_samples rowss ces ->
  Forall (fun u => length u = n) ces
  /\ Forall (fun u => length u = n) (map (map Rsum) rowss).
Proof.
  induction 1 as [|f s rows ce fs ss rowss ces He Hc Hn Hw Hl _ [IH1 IH2]].
  - split; constructor.
  - split; constructor; try assumption. now rewrite length_map.
Qed.

(** The closed form with the world it leaves. *)
Lemma kl_divergence_levels (self : DiVAE.obj) (n c : nat)
  (factorial : DiVAE.Distribution) (samples : tensor)
  (rows : list (list R)) (ce : list R)
  (posterior : list DiVAE.Distribution) (posterior_samples : list tensor)
  (rowss : list (list (list R))) (ces : list (list R)) (w : world) :
  level_values self n c (factorial :: posterior) (samples :: posterior_samples)
    (rows :: rowss) (ce :: ces) ->
  posterior = [] \/ DiVAE._model self = Some {| DiVAE.module_training := false |} ->
  DiVAE.kl_divergence self (factorial :: posterior) (samples :: posterior_samples) w
  = (Ret (Some (T1 (zipWith Rminus (vsum (ce :: ces))
                      (vsum (map (map Rsum) (rows :: rowss)))))),
     snd (logger_debug "ERROR kld for evaluation/training of one layer posterior"
            (snd (logger_debug "ERROR kl_divergence" w)))).
Proof.
  intros HL Hmode.
  inversion HL as [|? ? ? ? ? ? ? ? He Hc Hn Hw Hl HL']; subst.
  destruct (level_values_lengths _ _ _ _ _ _ _ HL') as [Hces Hrs].
  unfold DiVAE.kl_divergence, bind at 1. cbn [logger_debug snd].
  assert (Hcond :
    forall w',
      (if (1 <? length (factorial :: posterior))%nat
       then m <- DiVAE.getattr_model self ;; ret (DiVAE.module_training m)
       else ret false) w' = (Ret false, w')).
  { intros w'. destruct Hmode as [->|Hm]; [reflexivity|].
    destruct (1 <? length (factorial :: posterior))%nat; [|reflexivity].
    unfold bind, DiVAE.getattr_model. now rewrite Hm. }
  unfold bind at 1. rewrite Hcond.
  unfold bind at 1. cbn [logger_debug snd].
  unfold bind at 1. cbn [combine DiVAE.kl_loop].
  unfold bind at 1. rewrite He.
  unfold bind at 1. cbn [lift iadd bop]. rewrite map_map_Rplus_0.
  unfold bind at 1. cbn [lift torch_sum_dim1].
  unfold bind at 1. rewrite Hc.
  unfold bind at 1. cbn [lift iadd bop]. rewrite map_Rplus_0.
  rewrite (kl_loop_accumulates self (length rows) c _ _ _ _ HL')
    by (try assumption; reflexivity).
  unfold bind at 1. cbn [lift vsum map].
  rewrite bop_T1.
  - reflexivity.
  - rewrite (length_fold_zipWith (length rows)), (length_fold_zipWith (length rows));
      try assumption; try reflexivity. now rewrite length_map.
Qed.

(** X4.  Where the closed form is reached - the posterior has one level, or
    an attribute [_model] in evaluation mode is attached - and every level
    answers an [n] by [c] entropy matrix and the prior an [n]-vector,
    [kl_divergence] returns, per batch sample, the cross-entropies summed
    over the levels minus the entropies summed over the latent units and
    over the levels. *)
Theorem kl_divergence_closed_form (self : DiVAE.obj) (n c : nat)
  (factorial : DiVAE.Distribution) (samples : tensor)
  (rows : list (list R)) (ce : list R)
  (posterior : list DiVAE.Distribution) (posterior_samples : list tensor)
  (rowss : list (list (list R))) (ces : list (list R)) (w : world) :
  level_values self n c (factorial :: posterior) (samples :: posterior_samples)
    (rows :: rowss) (ce :: ces) ->
  posterior = [] \/ DiVAE._model self = Some {| DiVAE.module_training := false |} ->
  DiVAE.kl_divergence self (factorial :: posterior) (samples :: posterior_samples) w
  = (Ret (Some (T1 (zipWith Rminus (vsum (ce :: ces))
                      (vsum (map (map Rsum) (rows :: rowss)))))),
     snd (logger_debug "ERROR kld for evaluation/training of one layer posterior"
            (snd (logger_debug "ERROR kl_divergence" w)))).
Proof. apply kl_divergence_levels. Qed.

Lemma kl_divergence_closed_form_witness :
  level_values demo_model_attached 2 2
    [demo_distribution; demo_distribution]
    [T2 2 [[1; 2]; [3; 4]]; T2 2 [[5; 6]; [7; 8]]]
    [[[1; 2]; [3; 4]]; [[5; 6]; [7; 8]]]
    [[10 * Rsum [1; 2]; 10 * Rsum [3; 4]]; [10 * Rsum [5; 6]; 10 * Rsum [7; 8]]]
  /\ DiVAE.kl_divergence demo_model_attached
       [demo_distribution; demo_distribution]
       [T2 2 [[1; 2]; [3; 4]]; T2 2 [[5; 6]; [7; 8]]] w0
     = (Ret (Some (T1 (zipWith Rminus
                         (vsum [[10 * Rsum [1; 2]; 10 * Rsum [3; 4]];
                                [10 * Rsum [5; 6]; 10 * Rsum [7; 8]]])
                         (vsum (map (map Rsum)
                                  [[[1; 2]; [3; 4]]; [[5; 6]; [7; 8]]]))))),
        snd (logger_debug "ERROR kld for evaluation/training of one layer posterior"
               (snd (logger_debug "ERROR kl_divergence" w0))))
  /\ zipWith Rminus
       (vsum [[10 * Rsum [1; 2]; 10 * Rsum [3; 4]];
              [10 * Rsum [5; 6]; 10 * Rsum [7; 8]]])
       (vsum (map (map Rsum) [[[1; 2]; [3; 4]]; [[5; 6]; [7; 8]]]))
     = [126; 198].
Proof.
  assert (H : level_values demo_model_attached 2 2
                [demo_distribution; demo_distribution]
                [T2 2 [[1; 2]; [3; 4]]; T2 2 [[5; 6]; [7; 8]]]
                [[[1; 2]; [3; 4]]; [[5; 6]; [7; 8]]]
                [[10 * Rsum [1; 2]; 10 * Rsum [3; 4]];
                 [10 * Rsum [5; 6]; 10 * Rsum [7; 8]]]).
  { repeat (constructor; try reflexivity). }
  split; [exact H|]. split.
  - exact (kl_divergence_closed_form demo_model_attached 2 2 _ _ _ _ _ _ _ _ w0 H
             (or_intror eq_refl)).
  - unfold vsum, zipWith, Rsum. cbn [map fold_left combine fst snd fold_right].
    f_equal; [lra|]. f_equal. lra.
Defined.

(** X5.  With nothing to iterate over - no level, or one level and no
    sample - [kl_divergence] calls neither a distribution nor the prior and
    returns the Python number [0 - 0]. *)
Theorem kl_divergence_nothing_to_sum (self : DiVAE.obj)
  (posterior : list DiVAE.Distribution) (posterior_samples : list tensor) (w : world) :
  (length posterior <= 1)%nat ->
  posterior = [] \/ posterior_samples = [] ->
  DiVAE.kl_divergence self posterior posterior_samples w
  = (Ret (Some (Num (0 - 0))),
     snd (logger_debug "ERROR kld for evaluation/training of one layer posterior"
            (snd (logger_debug "ERROR kl_divergence" w)))).
Proof.
  intros Hlen Hempty.
  assert (Hc : combine posterior posterior_samples = []).
  { destruct Hempty as [->| ->]; [reflexivity|]. now destruct posterior. }
  unfold DiVAE.kl_divergence, bind at 1. cbn [logger_debug snd].
  replace (1 <? length posterior)%nat with false
    by (symmetry; apply Nat.ltb_ge; exact Hlen).
  rewrite Hc. reflexivity.
Qed.

Lemma kl_divergence_nothing_to_sum_witness :
  (length [demo_distribution] <= 1)%nat
  /\ DiVAE.kl_divergence demo_model [demo_distribution] [] w0
     = (Ret (Some (Num (0 - 0))),
        snd (logger_debug "ERROR kld for evaluation/training of one layer posterior"
               (snd (logger_debug "ERROR kl_divergence" w0)))).
Proof.
  assert (H : (length [demo_distribution] <= 1)%nat) by (simpl; lia).
  split; [exact H|].
  exact (kl_divergence_nothing_to_sum demo_model [demo_distribution] [] w0 H
           (or_intror eq_refl)).
Defined.

(** ** DiVAE.loss *)

Lemma view784_multiple (x : tensor) :
  is_tensor x -> (numel x mod 784 = 0)%nat ->
  view784 x = Ret (T2 784 (chunks 784 (numel x / 784) (elems x))).
Proof.
  intros Ht Hm. unfold numel in *. apply Nat.eqb_eq in Hm.
  destruct x as [r|r|v|c rows]; [contradiction| | |];
    unfold view784; now rewrite Hm.
Qed.

Lemma view784_first_row (x : tensor) :
  is_tensor x -> (numel x mod 784 = 0)%nat -> numel x <> 0%nat ->
  exists rs, view784 x = Ret (T2 784 (firstn 784 (elems x) :: rs))
             /\ length (firstn 784 (elems x)) = 784%nat.
Proof.
  intros Ht Hm Hn. rewrite (view784_multiple x Ht Hm).
  pose proof (Nat.div_mod_eq (numel x) 784) as Hd.
  destruct (numel x / 784)%nat as [|k] eqn:Ek; [lia|].
  cbn [chunks]. eexists. split; [reflexivity|].
  rewrite length_firstn. unfold numel in *. lia.
Qed.

Lemma view784_empty (x : tensor) :
  is_tensor x -> numel x = 0%nat -> view784 x = Ret (T2 784 []).
Proof.
  intros Ht Hn. rewrite (view784_multiple x Ht) by now rewrite Hn.
  now rewrite Hn.
Qed.

(** The reconstruction term as a function of the first row of the reshaped
    input, with the world it leaves. *)
Lemma reconstruction_term_value (self : DiVAE.obj) (x : tensor)
  (r0 : list R) (rs rows : list (list R)) (w : world) :
  view784 x = Ret (T2 784 (r0 :: rs)) ->
  length r0 = 784%nat ->
  Forall (fun r => length r = 784%nat) rows ->
  DiVAE.reconstruction_term self x (T2 784 rows) w
  = (Ret (T1 (map (fun zr =>
                     Rsum (zipWith (fun zi xi => sigmoid_cross_entropy_elem xi zi) zr r0))
                rows)),
     snd (logger_debug "WARNING sigmoid_cross_entropy_with_logits preliminary" w)).
Proof.
  intros Hv H0 Hrows. unfold DiVAE.reconstruction_term.
  rewrite (bind_lift_Ret _ _ _ _ Hv). cbn [getitem0].
  rewrite (bind_lift_Ret _ (T1 r0)) by reflexivity.
  unfold bind at 1. rewrite sigmoid_cross_entropy_matrix_vector by assumption.
  cbn [lift torch_sum_dim1]. now rewrite map_map.
Qed.

(** [DiVAE.loss], step by step. *)
Lemma loss_reconstruction_raises (self : DiVAE.obj) (x x_recon : tensor)
  (posterior : list DiVAE.Distribution) (posterior_samples : list tensor)
  (w w1 : world) (e : exn) :
  DiVAE.reconstruction_term self x x_recon
    (snd (logger_debug "ERROR loss NOT CORRECTLY IMPLEMENTED" w)) = (Raise e, w1) ->
  DiVAE.loss self x x_recon posterior posterior_samples w = (Raise e, w1).
Proof.
  intros H. unfold DiVAE.loss, bind at 1. cbn [logger_debug snd] in *.
  unfold bind at 1. now rewrite H.
Qed.

Lemma loss_kl_raises (self : DiVAE.obj) (x x_recon : tensor)
  (posterior : list DiVAE.Distribution) (posterior_samples : list tensor)
  (w w1 w2 : world) (a : tensor) (e : exn) :
  DiVAE.reconstruction_term self x x_recon
    (snd (logger_debug "ERROR loss NOT CORRECTLY IMPLEMENTED" w)) = (Ret a, w1) ->
  DiVAE.kl_divergence self posterior posterior_samples w1 = (Raise e, w2) ->
  DiVAE.loss self x x_recon posterior posterior_samples w = (Raise e, w2).
Proof.
  intros H1 H2. unfold DiVAE.loss, bind at 1. cbn [logger_debug snd] in *.
  unfold bind at 1. rewrite H1. unfold bind at 1.
  destruct (DiVAE.training self); unfold bind at 1; now rewrite H2.
Qed.

Lemma loss_steps (self : DiVAE.obj) (x x_recon : tensor)
  (posterior : list DiVAE.Distribution) (posterior_samples : list tensor)
  (w w1 w2 : world) (a : tensor) (k : option tensor) :
  DiVAE.reconstruction_term self x x_recon
    (snd (logger_debug "ERROR loss NOT CORRECTLY IMPLEMENTED" w)) = (Ret a, w1) ->
  DiVAE.kl_divergence self posterior posterior_samples w1 = (Ret k, w2) ->
  DiVAE.loss self x x_recon posterior posterior_samples w
  = (ne <~ match k with
           | Some t => bop Rplus a t
           | None => Raise TypeError
           end ;;
     mn <~ torch_mean ne ;;
     bop Rplus mn (Num 0),
     if DiVAE.training self
     then snd (logger_debug "ERROR weight_decay_loss NOT IMPLEMENTED" w2)
     else w2).
Proof.
  intros H1 H2. unfold DiVAE.loss, bind at 1. cbn [logger_debug snd] in *.
  unfold bind at 1. rewrite H1. unfold bind at 1.
  destruct (DiVAE.training self); unfold bind at 1; rewrite H2;
    unfold DiVAE.weight_decay_loss, DiVAE.add_opt, bind, lift, ret, raise, logger_debug;
    cbn [snd];
    (destruct k as [t|]; [|reflexivity]);
    (destruct (bop Rplus a t) as [ne|]; [|reflexivity]);
    cbn [bindO]; destruct (torch_mean ne); reflexivity.
Qed.


Lemma kl_loop_ext (self1 self2 : DiVAE.obj) (pairs : list (DiVAE.Distribution * tensor)) :
  DiVAE.prior self1 = DiVAE.prior self2 ->
  forall st w, DiVAE.kl_loop self1 pairs st w = DiVAE.kl_loop self2 pairs st w.
Proof.
  intros Hp. induction pairs as [|[f s] pairs IH]; intros [[e0 er0] c0] w; [reflexivity|].
  cbn [DiVAE.kl_loop]. rewrite Hp. unfold bind, lift.
  destruct (DiVAE.entropy f s w) as [[e|?] w1]; [|reflexivity].
  destruct (iadd e0 e) as [e1|?]; [|reflexivity].
  destruct (torch_sum_dim1 e1) as [er|?]; [|reflexivity].
  destruct (DiVAE.cross_entropy (DiVAE.prior self2) s w1) as [[ce|?] w2]; [|reflexivity].
  destruct (iadd c0 ce) as [c1|?]; [|reflexivity].
  apply IH.
Qed.

Lemma kl_divergence_ext (self1 self2 : DiVAE.obj)
  (posterior : list DiVAE.Distribution) (posterior_samples : list tensor) (w : world) :
  DiVAE.prior self1 = DiVAE.prior self2 ->
  DiVAE._model self1 = DiVAE._model self2 ->
  DiVAE.kl_divergence self1 posterior posterior_samples w
  = DiVAE.kl_divergence self2 posterior posterior_samples w.
Proof.
  intros Hp Hm. unfold DiVAE.kl_divergence, bind, DiVAE.getattr_model.
  cbn [logger_debug]. rewrite Hm.
  destruct (1 <? length posterior)%nat.
  - destruct (DiVAE._model self2) as [m|]; [|reflexivity].
    cbn [ret]. destruct (DiVAE.module_training m); [reflexivity|].
    cbn [logger_debug]. now rewrite (kl_loop_ext self1 self2 _ Hp).
  - cbn [ret logger_debug]. now rewrite (kl_loop_ext self1 self2 _ Hp).
Qed.

(** X7.  Training mode and evaluation mode give the same outcome of
    [DiVAE.loss]: the weight-decay term that only training mode adds is the
    placeholder 0.  (The worlds differ by the debug record of
    [weight_decay_loss].) *)
Theorem loss_same_in_both_modes
  (ld nh : Z) (wd : R) (enc : DiVAE.HierarchicalEncoder)
  (dec : DiVAE.Decoder) (rbm : DiVAE.RBM) (m : option DiVAE.nn_Module)
  (x x_recon : tensor) (posterior : list DiVAE.Distribution)
  (posterior_samples : list tensor) (w : world) :
  fst (DiVAE.loss
         {| DiVAE.training := true; DiVAE._latent_dimensions := ld;
            DiVAE._n_hidden_units := nh; DiVAE.weight_decay_factor := wd;
            DiVAE.encoder := enc; DiVAE.decoder := dec; DiVAE.prior := rbm;
            DiVAE._model := m |}
         x x_recon posterior posterior_samples w)
  = fst (DiVAE.loss
           {| DiVAE.training := false; DiVAE._latent_dimensions := ld;
              DiVAE._n_hidden_units := nh; DiVAE.weight_decay_factor := wd;
              DiVAE.encoder := enc; DiVAE.decoder := dec; DiVAE.prior := rbm;
              DiVAE._model := m |}
           x x_recon posterior posterior_samples w).
Proof.
  set (s1 := {| DiVAE.training := true; DiVAE._latent_dimensions := ld;
                DiVAE._n_hidden_units := nh; DiVAE.weight_decay_factor := wd;
                DiVAE.encoder := enc; DiVAE.decoder := dec; DiVAE.prior := rbm;
                DiVAE._model := m |}).
  set (s2 := {| DiVAE.training := false; DiVAE._latent_dimensions := ld;
                DiVAE._n_hidden_units := nh; DiVAE.weight_decay_factor := wd;
                DiVAE.encoder := enc; DiVAE.decoder := dec; DiVAE.prior := rbm;
                DiVAE._model := m |}).
  assert (Er : DiVAE.reconstruction_term s1 x x_recon
               = DiVAE.reconstruction_term s2 x x_recon) by reflexivity.
  destruct (DiVAE.reconstruction_term s2 x x_recon
              (snd (logger_debug "ERROR loss NOT CORRECTLY IMPLEMENTED" w)))
    as [[a|e] w1] eqn:E2.
  2:{ rewrite (loss_reconstruction_raises s2 _ _ _ _ _ _ _ E2).
      rewrite <- Er in E2.
      now rewrite (loss_reconstruction_raises s1 _ _ _ _ _ _ _ E2). }
  pose proof E2 as E1. rewrite <- Er in E1.
  destruct (DiVAE.kl_divergence s2 posterior posterior_samples w1)
    as [[k|e] w2] eqn:K2.
  - pose proof K2 as K1. rewrite <- (kl_divergence_ext s1 s2) in K1 by reflexivity.
    rewrite (loss_steps s1 _ _ _ _ _ _ _ _ _ E1 K1).
    now rewrite (loss_steps s2 _ _ _ _ _ _ _ _ _ E2 K2).
  - pose proof K2 as K1. rewrite <- (kl_divergence_ext s1 s2) in K1 by reflexivity.
    rewrite (loss_kl_raises s1 _ _ _ _ _ _ _ _ _ E1 K1).
    now rewrite (loss_kl_raises s2 _ _ _ _ _ _ _ _ _ E2 K2).
Qed.

(** X8.  The reconstruction term reads only the first 784 entries of the
    input batch: whatever the number of input rows, it has one entry per
    row of the reconstruction, the sum over that row of the per-element
    value against the first input row. *)
Theorem reconstruction_term_reads_first_row (self : DiVAE.obj) (x : tensor)
  (rows : list (list R)) (w : world) :
  is_tensor x -> (numel x mod 784 = 0)%nat -> numel x <> 0%nat ->
  Forall (fun r => length r = 784%nat) rows ->
  fst (DiVAE.reconstruction_term self x (T2 784 rows) w)
  = Ret (T1 (map (fun zr =>
                    Rsum (zipWith (fun zi xi => sigmoid_cross_entropy_elem xi zi)
                            zr (firstn 784 (elems x))))
               rows)).
Proof.
  intros Ht Hm Hn Hrows.
  destruct (view784_first_row x Ht Hm Hn) as (rs & Hv & Hl).
  now rewrite (reconstruction_term_value self x _ rs rows w Hv Hl Hrows).
Qed.

Lemma firstn_two_inputs : firstn 784 (elems two_inputs) = repeat 0 784%nat.
Proof. vm_compute. reflexivity. Qed.

Lemma reconstruction_term_reads_first_row_witness :
  is_tensor two_inputs /\ (numel two_inputs mod 784 = 0)%nat
  /\ numel two_inputs <> 0%nat
  /\ Forall (fun r => length r = 784%nat) [repeat 1 784%nat; repeat 2 784%nat]
  /\ fst (DiVAE.reconstruction_term demo_model two_inputs
            (T2 784 [repeat 1 784%nat; repeat 2 784%nat]) w0)
     = Ret (T1 [INR 784 * sigmoid_cross_entropy_elem 0 1;
                INR 784 * sigmoid_cross_entropy_elem 0 2]).
Proof.
  assert (Ht : is_tensor two_inputs) by exact I.
  assert (Hm : (numel two_inputs mod 784 = 0)%nat) by (vm_compute; reflexivity).
  assert (Hn : numel two_inputs <> 0%nat) by (vm_compute; discriminate).
  assert (Hr : Forall (fun r => length r = 784%nat)
                 [repeat 1 784%nat; repeat 2 784%nat])
    by (repeat constructor; apply length_repeat_784).
  split; [exact Ht|]. split; [exact Hm|]. split; [exact Hn|]. split; [exact Hr|].
  rewrite (reconstruction_term_reads_first_row demo_model two_inputs
             [repeat 1 784%nat; repeat 2 784%nat] w0 Ht Hm Hn Hr).
  rewrite firstn_two_inputs. cbn [map].
  now rewrite !zipWith_repeat, !Rsum_repeat.
Defined.

(** X9.  On an input without entries the reshape succeeds with no rows and
    [DiVAE.loss] raises [IndexError] at the index [[0]], before the
    reconstruction is looked at. *)
Theorem loss_empty_input (self : DiVAE.obj) (x x_recon : tensor)
  (posterior : list DiVAE.Distribution) (posterior_samples : list tensor) (w : world) :
  is_tensor x -> numel x = 0%nat ->
  DiVAE.loss self x x_recon posterior posterior_samples w
  = (Raise IndexError, snd (logger_debug "ERROR loss NOT CORRECTLY IMPLEMENTED" w)).
Proof.
  intros Ht Hn. apply loss_reconstruction_raises.
  unfold DiVAE.reconstruction_term.
  rewrite (bind_lift_Ret _ _ _ _ (view784_empty x Ht Hn)). reflexivity.
Qed.

Lemma loss_empty_input_witness :
  is_tensor (T1 []) /\ numel (T1 []) = 0%nat
  /\ DiVAE.loss demo_model (T1 []) two_recons [demo_distribution] [T2 1 [[0]]] w0
     = (Raise IndexError, snd (logger_debug "ERROR loss NOT CORRECTLY IMPLEMENTED" w0)).
Proof.
  split; [exact I|]. split; [reflexivity|].
  exact (loss_empty_input demo_model (T1 []) two_recons [demo_distribution]
           [T2 1 [[0]]] w0 I eq_refl).
Defined.

Lemma softplus_ge (a : R) : 0 <= a -> a <= softplus a.
Proof.
  intros Ha. unfold softplus. destruct (Rlt_dec 20 a); [lra|].
  left. rewrite <- (ln_exp a) at 1.
  apply ln_increasing; [apply exp_pos|lra].
Qed.

Lemma softplus_pos (a : R) : 0 <= a -> 0 < softplus a.
Proof.
  intros Ha. unfold softplus. destruct (Rlt_dec 20 a); [lra|].
  apply ln_1_plus_exp_pos.
Qed.

Lemma sigmoid_cross_entropy_elem_nonpos (x z : R) :
  0 <= x <= 1 -> sigmoid_cross_entropy_elem x z <= 0.
Proof.
  intros [H0 H1]. unfold sigmoid_cross_entropy_elem.
  pose proof (softplus_ge (Rabs z) (Rabs_pos z)) as Hs.
  unfold Rmax. destruct (Rle_dec z 0) as [Hz|Hz].
  - rewrite Rabs_left1 in * by assumption.
    assert (0 <= - z * (1 - x)) by (apply Rmult_le_pos; lra). lra.
  - rewrite Rabs_pos_eq in * by lra.
    assert (0 <= z * x) by (apply Rmult_le_pos; lra). lra.
Qed.

Lemma Rsum_nonpos (l : list R) : Forall (fun a => a <= 0) l -> Rsum l <= 0.
Proof.
  induction 1 as [|a l Ha _ IH]; unfold Rsum in *; simpl; lra.
Qed.

Lemma Forall_zipWith_r {A B C : Type} (P : C -> Prop) (Q : B -> Prop)
  (g : A -> B -> C) (u : list A) (v : list B) :
  (forall a b, Q b -> P (g a b)) -> Forall Q v -> Forall P (zipWith g u v).
Proof.
  intros H Hv. revert u. induction Hv as [|b v Hb _ IH]; intros [|a u];
    try constructor.
  - now apply H.
  - apply IH.
Qed.

(** X10.  When the first input row holds labels in [0,1], no entry of the
    reconstruction term is positive, whatever the reconstruction: the
    per-element value the code sums is at most 0. *)
Theorem reconstruction_term_not_positive (self : DiVAE.obj) (x : tensor)
  (rows : list (list R)) (w : world) :
  is_tensor x -> (numel x mod 784 = 0)%nat -> numel x <> 0%nat ->
  Forall (fun a => 0 <= a <= 1) (firstn 784 (elems x)) ->
  Forall (fun r => length r = 784%nat) rows ->
  exists v,
    fst (DiVAE.reconstruction_term self x (T2 784 rows) w) = Ret (T1 v)
    /\ length v = length rows
    /\ Forall (fun s => s <= 0) v.
Proof.
  intros Ht Hm Hn Hx Hrows.
  destruct (view784_first_row x Ht Hm Hn) as (rs & Hv & Hl).
  rewrite (reconstruction_term_value self x _ rs rows w Hv Hl Hrows).
  eexists. split; [reflexivity|]. split; [apply length_map|].
  apply Forall_forall. intros s Hs. apply in_map_iff in Hs.
  destruct Hs as (zr & <- & _). apply Rsum_nonpos.
  apply (Forall_zipWith_r _ (fun a => 0 <= a <= 1)); [|exact Hx].
  intros zi xi Hxi. now apply sigmoid_cross_entropy_elem_nonpos.
Qed.

Lemma reconstruction_term_not_positive_witness :
  is_tensor two_inputs
  /\ Forall (fun a => 0 <= a <= 1) (firstn 784 (elems two_inputs))
  /\ exists v,
       fst (DiVAE.reconstruction_term demo_model two_inputs two_recons w0) = Ret (T1 v)
       /\ length v = 2%nat
       /\ Forall (fun s => s <= 0) v.
Proof.
  assert (Ht : is_tensor two_inputs) by exact I.
  assert (Hm : (numel two_inputs mod 784 = 0)%nat) by (vm_compute; reflexivity).
  assert (Hn : numel two_inputs <> 0%nat) by (vm_compute; discriminate).
  assert (Hx : Forall (fun a => 0 <= a <= 1) (firstn 784 (elems two_inputs))).
  { rewrite firstn_two_inputs. apply Forall_forall. intros a Ha.
    apply repeat_spec in Ha. subst. lra. }
  split; [exact Ht|]. split; [exact Hx|].
  assert (Hr : Forall (fun r => length r = 784%nat)
                 [repeat 1 784%nat; repeat 1 784%nat])
    by (repeat constructor; apply length_repeat_784).
  exact (reconstruction_term_not_positive demo_model two_inputs
           [repeat 1 784%nat; repeat 1 784%nat] w0 Ht Hm Hn Hx Hr).
Defined.

(** X12.  Where the closed form of the KL term is reached and it has one
    entry per row of a reconstruction of at least one row, [DiVAE.loss]
    returns, in either mode, the mean over the batch of reconstruction term
    plus KL term, plus the placeholder 0 for the weight decay. *)
Theorem loss_value (self : DiVAE.obj) (n c : nat) (x : tensor) (rows : list (list R))
  (factorial : DiVAE.Distribution) (samples : tensor)
  (erows : list (list R)) (ce : list R)
  (posterior : list DiVAE.Distribution) (posterior_samples : list tensor)
  (rowss : list (list (list R))) (ces : list (list R)) (w : world) :
  is_tensor x -> (numel x mod 784 = 0)%nat -> numel x <> 0%nat ->
  Forall (fun r => length r = 784%nat) rows ->
  length rows = n -> n <> 0%nat ->
  level_values self n c (factorial :: posterior) (samples :: posterior_samples)
    (erows :: rowss) (ce :: ces) ->
  posterior = [] \/ DiVAE._model self = Some {| DiVAE.module_training := false |} ->
  fst (DiVAE.loss self x (T2 784 rows) (factorial :: posterior)
         (samples :: posterior_samples) w)
  = Ret (T0 (Rsum (zipWith Rplus
                     (map (fun zr =>
                             Rsum (zipWith (fun zi xi => sigmoid_cross_entropy_elem xi zi)
                                     zr (firstn 784 (elems x))))
                        rows)
                     (zipWith Rminus (vsum (ce :: ces))
                        (vsum (map (map Rsum) (erows :: rowss)))))
             / INR n + 0)).
Proof.
  intros Ht Hm Hn Hrows Hlen _ HL Hmode.
  destruct (view784_first_row x Ht Hm Hn) as (rs & Hv & Hl).
  rewrite (loss_steps self _ _ _ _ _ _ _ _ _
             (reconstruction_term_value self x _ rs rows _ Hv Hl Hrows)
             (kl_divergence_levels self n c _ _ _ _ _ _ _ _ _ HL Hmode)).
  destruct (level_values_lengths _ _ _ _ _ _ _ HL) as [Hces Hrs].
  inversion Hces as [|? ? Hce Hces']; subst.
  inversion Hrs as [|? ? Her Hrs']; subst.
  assert (Hk : length (zipWith Rminus (vsum (ce :: ces))
                         (vsum (map (map Rsum) (erows :: rowss)))) = length rows).
  { cbn [vsum map]. rewrite length_zipWith.
    - now apply length_fold_zipWith.
    - rewrite (length_fold_zipWith (length rows)), (length_fold_zipWith (length rows));
        try assumption; reflexivity. }
  cbn [fst]. rewrite bop_T1 by (rewrite length_map; now rewrite Hk).
  cbn [bindO torch_mean elems bop].
  rewrite length_zipWith by (rewrite length_map; now rewrite Hk).
  now rewrite length_map.
Qed.

Lemma loss_value_witness :
  is_tensor two_inputs /\ (numel two_inputs mod 784 = 0)%nat
  /\ numel two_inputs <> 0%nat
  /\ Forall (fun r => length r = 784%nat) [repeat 1 784%nat; repeat 2 784%nat]
  /\ 2%nat <> 0%nat
  /\ level_values demo_model_attached 2 2
       [demo_distribution; demo_distribution]
       [T2 2 [[1; 2]; [3; 4]]; T2 2 [[5; 6]; [7; 8]]]
       [[[1; 2]; [3; 4]]; [[5; 6]; [7; 8]]]
       [[10 * Rsum [1; 2]; 10 * Rsum [3; 4]]; [10 * Rsum [5; 6]; 10 * Rsum [7; 8]]]
  /\ fst (DiVAE.loss demo_model_attached two_inputs
            (T2 784 [repeat 1 784%nat; repeat 2 784%nat])
            [demo_distribution; demo_distribution]
            [T2 2 [[1; 2]; [3; 4]]; T2 2 [[5; 6]; [7; 8]]] w0)
     = Ret (T0 (Rsum (zipWith Rplus
                        (map (fun zr =>
                                Rsum (zipWith
                                        (fun zi xi => sigmoid_cross_entropy_elem xi zi)
                                        zr (firstn 784 (elems two_inputs))))
                           [repeat 1 784%nat; repeat 2 784%nat])
                        (zipWith Rminus
                           (vsum [[10 * Rsum [1; 2]; 10 * Rsum [3; 4]];
                                  [10 * Rsum [5; 6]; 10 * Rsum [7; 8]]])
                           (vsum (map (map Rsum)
                                    [[[1; 2]; [3; 4]]; [[5; 6]; [7; 8]]]))))
                / INR 2 + 0)).
Proof.
  assert (Ht : is_tensor two_inputs) by exact I.
  assert (Hm : (numel two_inputs mod 784 = 0)%nat) by (vm_compute; reflexivity).
  assert (Hn : numel two_inputs <> 0%nat) by (vm_compute; discriminate).
  assert (Hr : Forall (fun r => length r = 784%nat)
                 [repeat 1 784%nat; repeat 2 784%nat])
    by (repeat constructor; apply length_repeat_784).
  assert (H2 : 2%nat <> 0%nat) by discriminate.
  assert (HL : level_values demo_model_attached 2 2
                 [demo_distribution; demo_distribution]
                 [T2 2 [[1; 2]; [3; 4]]; T2 2 [[5; 6]; [7; 8]]]
                 [[[1; 2]; [3; 4]]; [[5; 6]; [7; 8]]]
                 [[10 * Rsum [1; 2]; 10 * Rsum [3; 4]];
                  [10 * Rsum [5; 6]; 10 * Rsum [7; 8]]]).
  { repeat (constructor; try reflexivity). }
  split; [exact Ht|]. split; [exact Hm|]. split; [exact Hn|]. split; [exact Hr|].
  split; [exact H2|]. split; [exact HL|].
  exact (loss_value demo_model_attached 2 2 two_inputs
           [repeat 1 784%nat; repeat 2 784%nat] _ _ _ _ _ _ _ _ w0
           Ht Hm Hn Hr eq_refl H2 HL (or_intror eq_refl)).
Defined.

(** ** The rank of the entropy *)

(** X13.  When the closed form is reached and the first level's entropy is a
    vector instead of a matrix, [kl_divergence] raises [IndexError] at the
    sum over dimension 1, before the prior is asked for a cross-entropy. *)
Theorem kl_divergence_entropy_rank (self : DiVAE.obj)
  (factorial : DiVAE.Distribution) (samples : tensor) (v : list R)
  (posterior : list DiVAE.Distribution) (posterior_samples : list tensor)
  (w w1 : world) :
  posterior = [] \/ DiVAE._model self = Some {| DiVAE.module_training := false |} ->
  DiVAE.entropy factorial samples
    (snd (logger_debug "ERROR kld for evaluation/training of one layer posterior"
            (snd (logger_debug "ERROR kl_divergence" w))))
  = (Ret (T1 v), w1) ->
  DiVAE.kl_divergence self (factorial :: posterior) (samples :: posterior_samples) w
  = (Raise IndexError, w1).
Proof.
  intros Hmode He.
  unfold DiVAE.kl_divergence, bind at 1. cbn [logger_debug snd] in *.
  assert (Hcond :
    forall w',
      (if (1 <? length (factorial :: posterior))%nat
       then m <- DiVAE.getattr_model self ;; ret (DiVAE.module_training m)
       else ret false) w' = (Ret false, w')).
  { intros w'. destruct Hmode as [->|Hm]; [reflexivity|].
    destruct (1 <? length (factorial :: posterior))%nat; [|reflexivity].
    unfold bind, DiVAE.getattr_model. now rewrite Hm. }
  unfold bind at 1. rewrite Hcond.
  unfold bind at 1. cbn [logger_debug snd].
  unfold bind at 1. cbn [combine DiVAE.kl_loop].
  unfold bind at 1. rewrite He. reflexivity.
Qed.

Lemma kl_divergence_entropy_rank_witness :
  DiVAE.entropy demo_distribution (T1 [0])
    (snd (logger_debug "ERROR kld for evaluation/training of one layer posterior"
            (snd (logger_debug "ERROR kl_divergence" w0))))
  = (Ret (T1 [0]),
     snd (logger_debug "ERROR kld for evaluation/training of one layer posterior"
            (snd (logger_debug "ERROR kl_divergence" w0))))
  /\ DiVAE.kl_divergence demo_model [demo_distribution] [T1 [0]] w0
     = (Raise IndexError,
        snd (logger_debug "ERROR kld for evaluation/training of one layer posterior"
               (snd (logger_debug "ERROR kl_divergence" w0)))).
Proof.
  split; [reflexivity|].
  exact (kl_divergence_entropy_rank demo_model demo_distribution (T1 [0]) [0] [] []
           w0 _ (or_introl eq_refl) eq_refl).
Defined.

(** ** The sign of the logistic term *)

Lemma sigmoid_cross_entropy_elem_lt_logistic (x z : R) :
  sigmoid_cross_entropy_elem x z < logistic_loss x z.
Proof.
  unfold sigmoid_cross_entropy_elem, logistic_loss.
  pose proof (softplus_pos (Rabs z) (Rabs_pos z)).
  pose proof (ln_1_plus_exp_pos (- Rabs z)). lra.
Qed.

(** X14.  On a label vector and a logit vector of one length, every entry
    that [sigmoid_cross_entropy_with_logits] returns lies strictly below the
    logistic loss [max(z,0) - z*x + log(1+exp(-|z|))] of the same label and
    logit. *)
Theorem sigmoid_cross_entropy_below_logistic_loss (self : DiVAE.obj)
  (x z : list R) (w : world) :
  length z = length x ->
  exists v,
    fst (DiVAE.sigmoid_cross_entropy_with_logits self (T1 x) (T1 z) w) = Ret (T1 v)
    /\ length v = length z
    /\ forall i, (i < length z)%nat ->
         nth i v 0 < logistic_loss (nth i x 0) (nth i z 0).
Proof.
  intros H. rewrite (sigmoid_cross_entropy_vectors self x z w H).
  eexists. split; [reflexivity|]. split; [now apply length_zipWith|].
  intros i Hi. rewrite (nth_zipWith _ _ _ _ 0 0) by assumption.
  apply sigmoid_cross_entropy_elem_lt_logistic.
Qed.

Lemma sigmoid_cross_entropy_below_logistic_loss_witness :
  length [1; 0] = length [0; 1]
  /\ exists v,
       fst (DiVAE.sigmoid_cross_entropy_with_logits demo_model (T1 [0; 1]) (T1 [1; 0]) w0)
       = Ret (T1 v)
       /\ length v = 2%nat
       /\ forall i, (i < 2)%nat ->
            nth i v 0 < logistic_loss (nth i [0; 1] 0) (nth i [1; 0] 0).
Proof.
  split; [reflexivity|].
  exact (sigmoid_cross_entropy_below_logistic_loss demo_model [0; 1] [1; 0] w0 eq_refl).
Defined.

(** ** The sign of the Gaussian KL term *)

Lemma vae_loss_value
  (binary_cross_entropy : tensor -> tensor -> M tensor) (self : VAE.obj)
  (x xv x_recon mu logvar : tensor) (b : R) (w w1 : world) :
  view784 x = Ret xv ->
  binary_cross_entropy x_recon xv (snd (logger_debug "loss" w)) = (Ret (T0 b), w1) ->
  same_shape mu logvar ->
  VAE.loss binary_cross_entropy self x x_recon mu logvar w
  = (Ret (T0 (b - 0.5 * Rsum (zipWith gaussian_kl_elem (elems mu) (elems logvar)))),
     w1).
Proof.
  intros Hv Hb Hs.
  pose proof (same_shape_sym _ _ Hs) as Hs'.
  unfold VAE.loss, bind at 1. cbn [logger_debug snd] in *.
  rewrite (bind_lift_Ret _ _ _ _ Hv). unfold bind at 1. rewrite Hb.
  unfold bind at 1.
  rewrite (bop_Num_l _ _ _ _ Hs). cbn [bindO lift].
  rewrite (pow2_same_shape _ _ Hs'). cbn [bindO].
  assert (S1 : same_shape (tmapf (Rplus 1) logvar) (tmapf (fun a => a ^ 2) mu)).
  { eapply same_shape_trans; [apply same_shape_sym, same_shape_tmapf; exact Hs|].
    apply same_shape_tmapf. exact (same_shape_refl_l _ _ Hs). }
  rewrite (bop_same_shape _ _ _ S1). cbn [bindO].
  unfold torch_exp. rewrite (tmap_same_shape _ _ _ Hs). cbn [bindO].
  assert (S2 : same_shape
                 (tzip Rminus (tmapf (Rplus 1) logvar) (tmapf (fun a => a ^ 2) mu))
                 (tmapf exp logvar)).
  { eapply same_shape_trans; [apply same_shape_sym, same_shape_tzip; exact S1|].
    eapply same_shape_trans; [apply same_shape_sym, same_shape_tmapf; exact Hs|].
    now apply same_shape_tmapf. }
  rewrite (bop_same_shape _ _ _ S2). cbn [bindO].
  rewrite (torch_sum_same_shape _ _ (same_shape_tzip Rminus _ _ S2)).
  cbn [bindO bop].
  rewrite (elems_tzip _ _ _ S2), (elems_tzip _ _ _ S1), !elems_tmapf.
  rewrite gaussian_kl_row by exact (same_shape_numel _ _ Hs).
  reflexivity.
Qed.

Lemma gaussian_kl_elem_nonpos (m l : R) : gaussian_kl_elem m l <= 0.
Proof.
  unfold gaussian_kl_elem. pose proof (exp_ineq1_le l). pose proof (pow2_ge_0 m). lra.
Qed.

Lemma Forall_zipWith_all {A B C : Type} (P : C -> Prop) (g : A -> B -> C)
  (u : list A) (v : list B) :
  (forall a b, P (g a b)) -> Forall P (zipWith g u v).
Proof.
  intros H. unfold zipWith. apply Forall_forall. intros c Hc.
  apply in_map_iff in Hc. destruct Hc as ([a b] & <- & _). apply H.
Qed.

Lemma Rsum_zeros (l : list R) : Forall (fun a => a = 0) l -> Rsum l = 0.
Proof. induction 1 as [|a l Ha _ IH]; unfold Rsum in *; simpl; lra. Qed.

(** X11.  [VAE.loss] is never below its reconstruction term: the Gaussian KL
    term [0.5 * sum(1 + logvar - mu^2 - exp(logvar))] that it subtracts is
    at most 0, and it is 0, so that the loss is the reconstruction term, when
    [mu] and [logvar] are zero everywhere. *)
Theorem vae_loss_at_least_reconstruction
  (binary_cross_entropy : tensor -> tensor -> M tensor) (self : VAE.obj)
  (x xv x_recon mu logvar : tensor) (b : R) (w w1 : world) :
  view784 x = Ret xv ->
  binary_cross_entropy x_recon xv (snd (logger_debug "loss" w)) = (Ret (T0 b), w1) ->
  same_shape mu logvar ->
  exists v,
    VAE.loss binary_cross_entropy self x x_recon mu logvar w = (Ret (T0 v), w1)
    /\ b <= v
    /\ (Forall (fun a => a = 0) (elems mu) ->
        Forall (fun a => a = 0) (elems logvar) -> v = b).
Proof.
  intros Hv Hb Hs.
  rewrite (vae_loss_value binary_cross_entropy self x xv x_recon mu logvar b w w1 Hv Hb Hs).
  eexists. split; [reflexivity|]. split.
  - pose proof (Rsum_nonpos (zipWith gaussian_kl_elem (elems mu) (elems logvar))
                  (Forall_zipWith_all _ _ _ _ gaussian_kl_elem_nonpos)).
    lra.
  - intros Hm Hl.
    rewrite Rsum_zeros; [lra|].
    unfold zipWith. apply Forall_forall. intros c Hc.
    apply in_map_iff in Hc. destruct Hc as ([m l] & <- & Hin).
    rewrite Forall_forall in Hm, Hl.
    rewrite (Hm m (in_combine_l _ _ _ _ Hin)), (Hl l (in_combine_r _ _ _ _ Hin)).
    unfold gaussian_kl_elem. cbn [fst snd]. rewrite exp_0. lra.
Qed.

Lemma vae_loss_at_least_reconstruction_witness :
  view784 (T1 (repeat 0 784%nat)) = Ret (T2 784 [repeat 0 784%nat])
  /\ same_shape (T1 [1]) (T1 [0])
  /\ exists v,
       VAE.loss demo_bce demo_vae (T1 (repeat 0 784%nat)) (T2 784 [repeat 0 784%nat])
         (T1 [1]) (T1 [0]) w0
       = (Ret (T0 v), snd (logger_debug "loss" w0))
       /\ 0 <= v.
Proof.
  assert (Hv : view784 (T1 (repeat 0 784%nat)) = Ret (T2 784 [repeat 0 784%nat]))
    by (vm_compute; reflexivity).
  assert (Hs : same_shape (T1 [1]) (T1 [0])) by (constructor; reflexivity).
  split; [exact Hv|]. split; [exact Hs|].
  destruct (vae_loss_at_least_reconstruction demo_bce demo_vae
              (T1 (repeat 0 784%nat)) (T2 784 [repeat 0 784%nat])
              (T2 784 [repeat 0 784%nat]) (T1 [1]) (T1 [0]) 0 w0
              (snd (logger_debug "loss" w0)) Hv eq_refl Hs) as (v & E & Hle & _).
  exists v. split; [exact E|exact Hle].
Defined.
